(** * PySDDR formula compiler: a shallow embedding of [utils.py]

    The development follows [utils.py] function by function.  Python
    floats are idealised as exact rationals ([Qc], canonical fractions with
    Leibniz equality); every routine of numpy, scipy, patsy and the Python
    parser that the file calls but does not define is a field of a record
    of library operations, so that each theorem holds for every behaviour
    of those libraries.  Exceptions are the [Raise] results of a small
    state-and-error monad whose state is the process-wide [warnings]
    filter list, which [df2lambda] mutates. *)

From Stdlib Require Import List String Ascii Bool Arith ZArith Lia.
From Stdlib Require Import QArith Qcanon Qcabs.
Import ListNotations.

Set Implicit Arguments.

Local Close Scope Qc_scope.
Local Close Scope Q_scope.
Local Open Scope string_scope.
Local Open Scope list_scope.
Local Open Scope nat_scope.

(* ================================================================== *)
(** ** Python results, exceptions and the [warnings] module            *)
(* ================================================================== *)

(** Numbers of the program: Python ints, floats and numpy float64. *)
Abbreviation scalar := Qc (only parsing).

(** The messages of the three [warnings.warn] calls of [df2lambda], with
    the values that [str.format] splices into them. *)
Inductive warning_msg : Type :=
| DfTooLarge (df : scalar) (rank : Z)
| LambdaMaxTooSmall (lam_max : scalar) (deviation : scalar)
| DfDiffer (deviation : scalar).

Inductive exn : Type :=
| Exception (msg : string)
| TypeError (msg : string)
| ValueError (msg : string)
| IndexError
| KeyError (key : string)
| LinAlgError
| StopIteration
| UserWarning (w : warning_msg).

Inductive result (A : Type) : Type :=
| Ok (a : A)
| Raise (e : exn).
Arguments Ok {A} a.
Arguments Raise {A} e.

(** Actions of a warnings filter. *)
Inductive action : Type :=
| ActError | ActIgnore | ActAlways | ActDefault | ActModule | ActOnce.

(** One entry of [warnings.filters]: what to do, and which warnings it
    applies to. *)
Record warn_filter : Type := mk_filter {
  wf_action : action;
  wf_matches : warning_msg -> bool
}.

(** The part of the interpreter state the program touches: the filter
    list and the warnings that were shown without being raised. *)
Record wstate : Type := mk_wstate {
  filters : list warn_filter;
  shown : list warning_msg
}.

Definition M (A : Type) : Type := wstate -> result A * wstate.

Definition ret {A} (a : A) : M A := fun s => (Ok a, s).
Definition raise {A} (e : exn) : M A := fun s => (Raise e, s).
Definition bind {A B} (c : M A) (k : A -> M B) : M B :=
  fun s => match c s with
           | (Ok a, s') => k a s'
           | (Raise e, s') => (Raise e, s')
           end.
Definition lift {A} (r : result A) : M A := fun s => (r, s).

Declare Scope py_scope.
Delimit Scope py_scope with py.
Notation "x <- c ;; k" := (bind c (fun x => k))
  (at level 61, c at next level, right associativity) : py_scope.
Notation "c ;;; k" := (bind c (fun _ => k))
  (at level 61, right associativity) : py_scope.
Local Open Scope py_scope.

(** [try: c except: h] with a bare [except]. *)
Definition try_except {A} (c h : M A) : M A :=
  fun s => match c s with
           | (Ok a, s') => (Ok a, s')
           | (Raise _, s') => h s'
           end.

(** [warnings.simplefilter(a)]: a filter that matches every warning is
    put at the front of the list. *)
Definition simplefilter (a : action) : M unit :=
  fun s => (Ok tt, mk_wstate (mk_filter a (fun _ => true) :: filters s) (shown s)).

(** [warnings.warn(msg)]: the first filter that matches decides; with
    action [error] the warning is raised as an exception, otherwise
    execution goes on (the warning is shown or dropped). *)
Definition warn (w : warning_msg) : M unit :=
  fun s => match find (fun f => wf_matches f w) (filters s) with
           | Some f =>
               match wf_action f with
               | ActError => (Raise (UserWarning w), s)
               | ActIgnore => (Ok tt, s)
               | _ => (Ok tt, mk_wstate (filters s) (shown s ++ [w]))
               end
           | None => (Ok tt, mk_wstate (filters s) (shown s ++ [w]))
           end.

(* ================================================================== *)
(** ** Python strings, lists and dicts                                 *)
(* ================================================================== *)

(** [s.replace(c, '')] for a one-character [c]. *)
Fixpoint remove_char (c : ascii) (s : string) : string :=
  match s with
  | EmptyString => EmptyString
  | String a rest =>
      if Ascii.eqb a c then remove_char c rest
      else String a (remove_char c rest)
  end.

(** [s.split(sep)] for a one-character separator: never empty. *)
Fixpoint split_char (sep : ascii) (s : string) : list string :=
  match s with
  | EmptyString => [EmptyString]
  | String a rest =>
      if Ascii.eqb a sep then EmptyString :: split_char sep rest
      else match split_char sep rest with
           | [] => [String a EmptyString]
           | w :: ws => String a w :: ws
           end
  end.

(** [sep.join(parts)]. *)
Fixpoint join (sep : string) (parts : list string) : string :=
  match parts with
  | [] => EmptyString
  | p :: nil => p
  | p :: ps => (p ++ sep ++ join sep ps)%string
  end.

(** [needle in haystack] on strings. *)
Fixpoint contains (needle haystack : string) : bool :=
  String.prefix needle haystack ||
  match haystack with
  | EmptyString => false
  | String _ rest => contains needle rest
  end.

(** [x in l] on a list of strings. *)
Definition mem (x : string) (l : list string) : bool :=
  existsb (String.eqb x) l.

(** [l[i]] for a non-negative index. *)
Definition py_index {A} (l : list A) (i : nat) : result A :=
  match nth_error l i with
  | Some a => Ok a
  | None => Raise IndexError
  end.

(** [l[-1]]. *)
Definition py_last {A} (l : list A) : result A :=
  match rev l with
  | a :: _ => Ok a
  | [] => Raise IndexError
  end.

(** A dict keeps insertion order; assigning to a key that is present
    replaces the value in place. *)
Definition dict (V : Type) : Type := list (string * V).

Fixpoint dict_get {V} (d : dict V) (k : string) : option V :=
  match d with
  | [] => None
  | (k', v) :: d' => if String.eqb k k' then Some v else dict_get d' k
  end.

Fixpoint dict_set {V} (d : dict V) (k : string) (v : V) : dict V :=
  match d with
  | [] => [(k, v)]
  | (k', v') :: d' =>
      if String.eqb k k' then (k', v) :: d' else (k', v') :: dict_set d' k v
  end.

Definition dict_keys {V} (d : dict V) : list string := map fst d.

(** [d[k]]. *)
Definition dict_item {V} (d : dict V) (k : string) : result V :=
  match dict_get d k with
  | Some v => Ok v
  | None => Raise (KeyError k)
  end.

(* ================================================================== *)
(** ** [_checkups] and [_split_formula]                                *)
(* ================================================================== *)

(** [_checkups(params, formulas)]: one formula per parameter of the
    family, in the order of [params]; the [print] is not modelled. *)
Definition _checkups (params : list string) (formulas : dict string)
  : dict string :=
  fold_left
    (fun new_formulas param =>
       match dict_get formulas param with
       | Some f => dict_set new_formulas param f
       | None => dict_set new_formulas param "~0"
       end)
    params [].

(** The loop body of [_split_formula]: the text before the first
    parenthesis decides to which list the part goes. *)
Definition split_step (net_names_list : list string)
  (acc : list string * list string) (part : string)
  : list string * list string :=
  let '(structured_terms, unstructured_terms) := acc in
  let term := hd EmptyString (split_char "(" part) in
  if mem term net_names_list
  then (structured_terms, unstructured_terms ++ [part])
  else (structured_terms ++ [part], unstructured_terms).

Definition _split_formula (formula : string) (net_names_list : list string)
  : string * list string :=
  let formula := remove_char " " formula in
  let formula := remove_char "~" formula in
  let formula_parts := split_char "+" formula in
  let '(structured_terms, unstructured_terms) :=
    fold_left (split_step net_names_list) formula_parts ([], []) in
  (join "+" structured_terms, unstructured_terms).

(* ================================================================== *)
(** ** Scalars and numpy arrays                                        *)
(* ================================================================== *)

Definition Z2Qc (z : Z) : scalar := Q2Qc (inject_Z z).
Definition qc (n : Z) (d : positive) : scalar := Q2Qc (n # d).

Definition Qc_ltb (x y : scalar) : bool :=
  match (x ?= y)%Qc with Lt => true | _ => false end.
Definition Qc_leb (x y : scalar) : bool :=
  match (x ?= y)%Qc with Gt => false | _ => true end.

(** A two-dimensional float array, as the list of its rows; an array
    without rows has no recorded width. *)
Definition matrix := list (list scalar).

Definition nrows (A : matrix) : nat := List.length A.
Definition ncols (A : matrix) : nat :=
  match A with [] => 0 | r :: _ => List.length r end.
Definition entry (A : matrix) (i j : nat) : scalar :=
  nth j (nth i A []) 0%Qc.

(** The [r] x [c] array whose entry [(i, j)] is [f i j]. *)
Definition tabulate (r c : nat) (f : nat -> nat -> scalar) : matrix :=
  map (fun i => map (fun j => f i j) (seq 0 c)) (seq 0 r).

(** [np.zeros((r, c))], [np.identity(n)], [A.T]. *)
Definition np_zeros (r c : nat) : matrix := tabulate r c (fun _ _ => 0%Qc).
Definition np_identity (n : nat) : matrix :=
  tabulate n n (fun i j => if i =? j then 1%Qc else 0%Qc).
Definition transpose (A : matrix) : matrix :=
  tabulate (ncols A) (nrows A) (fun i j => entry A j i).

(** [A * c] and [c * A] for a Python number [c]. *)
Definition np_scale_r (A : matrix) (c : scalar) : matrix :=
  map (map (fun x => (x * c)%Qc)) A.
Definition np_scale_l (c : scalar) (A : matrix) : matrix :=
  map (map (fun x => (c * x)%Qc)) A.

(** numpy broadcasting of one axis: equal lengths, or one of them 1. *)
Definition bdim (a b : nat) : option nat :=
  if a =? b then Some a
  else if a =? 1 then Some b
  else if b =? 1 then Some a
  else None.
Definition bidx (dim i : nat) : nat := if dim =? 1 then 0 else i.

Definition np_binop (op : scalar -> scalar -> scalar) (A B : matrix)
  : result matrix :=
  match bdim (nrows A) (nrows B), bdim (ncols A) (ncols B) with
  | Some r, Some c =>
      Ok (tabulate r c (fun i j =>
            op (entry A (bidx (nrows A) i) (bidx (ncols A) j))
               (entry B (bidx (nrows B) i) (bidx (ncols B) j))))
  | _, _ => Raise (ValueError "operands could not be broadcast together")
  end.

Definition np_add : matrix -> matrix -> result matrix := np_binop Qcplus.
Definition np_sub : matrix -> matrix -> result matrix := np_binop Qcminus.

Definition matrix_eq_dec (A B : matrix) : {A = B} + {A <> B} :=
  list_eq_dec (list_eq_dec Qc_eq_dec) A B.

(** The finite sum [f 0 + ... + f (n-1)]. *)
Fixpoint sum_n (n : nat) (f : nat -> scalar) : scalar :=
  match n with
  | O => 0%Qc
  | S m => (sum_n m f + f m)%Qc
  end.

(** [A @ B] and [np.matmul(A, B)]. *)
Definition np_matmul (A B : matrix) : result matrix :=
  if ncols A =? nrows B
  then Ok (tabulate (nrows A) (ncols B) (fun i j =>
             sum_n (ncols A) (fun k => (entry A i k * entry B k j)%Qc)))
  else Raise (ValueError "matmul: shape mismatch").

(** The columns [a:b] of every row: [A[:, a:b]] and [df.iloc[:, a:b]]. *)
Definition col_slice (A : matrix) (a b : nat) : matrix :=
  map (fun row => firstn (b - a) (skipn a row)) A.

(** [A[a:b, a:b] = B] on an array [A]: the value is broadcast to the
    shape of the target block, which is clipped to the array. *)
Definition set_block (A : matrix) (a b : nat) (B : matrix) : result matrix :=
  let lo := Nat.min a (nrows A) in
  let hi := Nat.max lo (Nat.min b (nrows A)) in
  let lo' := Nat.min a (ncols A) in
  let hi' := Nat.max lo' (Nat.min b (ncols A)) in
  if ((nrows B =? hi - lo) || (nrows B =? 1)) &&
     ((ncols B =? hi' - lo') || (ncols B =? 1))
  then Ok (tabulate (nrows A) (ncols A) (fun i j =>
             if (lo <=? i) && (i <? hi) && (lo' <=? j) && (j <? hi')
             then entry B (bidx (nrows B) (i - lo)) (bidx (ncols B) (j - lo'))
             else entry A i j))
  else Raise (ValueError "could not broadcast input array").

(** Python's builtin [sum] over an array: a left fold from [0]. *)
Definition py_sum (l : list scalar) : scalar := fold_left Qcplus l 0%Qc.

(** Python's builtin [min]. *)
Definition py_min (l : list scalar) : result scalar :=
  match l with
  | [] => Raise (ValueError "min() arg is an empty sequence")
  | x :: xs => Ok (fold_left (fun m y => if Qc_ltb y m then y else m) xs x)
  end.

(** The routines of numpy and scipy that [utils.py] calls: each theorem
    below holds whatever they return. *)
Record Numpy : Type := mk_numpy {
  (** [np.linalg.matrix_rank] *)
  matrix_rank : matrix -> Z;
  (** [np.linalg.eigh(A)[0]] *)
  eigh_eigenvalues : matrix -> result (list scalar);
  (** [np.sqrt] on a number *)
  np_sqrt : scalar -> scalar;
  (** [sp.linalg.cholesky(A, lower=False)] *)
  cholesky_upper : matrix -> result matrix;
  (** [sp.linalg.solve_triangular] *)
  solve_triangular : matrix -> matrix -> result matrix;
  (** [np.linalg.svd(A, compute_uv=False)] *)
  svd_values : matrix -> result (list scalar);
  (** [np.linalg.svd(A, compute_uv=True)[1]] *)
  svd_full_values : matrix -> result (list scalar);
  (** [sp.optimize.brentq(f, a, b)] *)
  brentq : (scalar -> result scalar) -> scalar -> scalar -> result scalar;
  (** [np.linalg.qr(A)[0]] *)
  qr_q : matrix -> result matrix
}.

(* ================================================================== *)
(** ** [make_matrix_positive_semi_definite], [dfFun], [df2lambda]      *)
(* ================================================================== *)

(** The operator [^] of Python is bitwise exclusive or; numpy defines it
    on integer and boolean arrays only, and a float array raises. *)
Definition bitwise_xor (x : list scalar) (n : Z) : result (list scalar) :=
  Raise (TypeError "ufunc 'bitwise_xor' not supported for the input types").

(** [1 / (1 + lam * d)] on the array [d]. *)
Definition shrink_factors (lam : scalar) (d : list scalar) : list scalar :=
  map (fun di => (1 / (1 + lam * di))%Qc) d.

Definition dfFun (lam : scalar) (d : list scalar) (hat1 : bool)
  : result scalar :=
  if hat1 then Ok (py_sum (shrink_factors lam d))
  else
    let left := (Z2Qc 2 * py_sum (shrink_factors lam d))%Qc in
    match bitwise_xor (shrink_factors lam d) 2 with
    | Ok x => Ok (left - py_sum x)%Qc
    | Raise e => Raise e
    end.

(** A call of [make_matrix_positive_semi_definite] with the arguments
    given by position; the function has two parameters and no defaults,
    so a call with one argument fails before the body runs. *)
Definition make_matrix_positive_semi_definite (np : Numpy)
  (A : matrix) (machine_epsilon : option scalar) : result matrix :=
  match machine_epsilon with
  | None =>
      Raise (TypeError "missing 1 required positional argument: 'machine_epsilon'")
  | Some eps =>
      match eigh_eigenvalues np A with
      | Raise e => Raise e
      | Ok eigenvalues =>
          match py_min eigenvalues with
          | Raise e => Raise e
          | Ok m =>
              let min_eigen := (m - np_sqrt np eps)%Qc in
              if Qc_ltb min_eigen (- qc 1 10000000000)%Qc then
                let rho := (1 / (1 - min_eigen))%Qc in
                match np_add (np_scale_l rho A)
                        (np_scale_l (1 - rho)%Qc (np_identity (nrows A))) with
                | Raise e => Raise e
                | Ok _ =>
                    (* A = make_matrix_positive_semi_definite(A) *)
                    Raise (TypeError
                      "missing 1 required positional argument: 'machine_epsilon'")
                end
              else Ok A
          end
      end
  end.

(** [np.finfo(float).eps * 2], that is 2^-51. *)
Definition machine_epsilon : scalar := qc 1 2251799813685248.

(** Lines 183 to 199 of [df2lambda]: the singular values [d] of the
    penalty in the basis that whitens [X'X]. *)
Definition singular_values (np : Numpy) (dm P : matrix)
  : M (list scalar) :=
  XtX <- lift (np_matmul (transpose dm) dm) ;;
  A <- lift (np_add XtX (np_scale_r P (qc 1 1000000000000000))) ;;
  A <- lift (make_matrix_positive_semi_definite np A (Some machine_epsilon)) ;;
  U <- lift (cholesky_upper np A) ;;
  Rm <- lift (solve_triangular np U (np_identity (ncols XtX))) ;;
  try_except
    (RtP <- lift (np_matmul (transpose Rm) P) ;;
     RtPR <- lift (np_matmul RtP Rm) ;;
     lift (svd_values np RtPR))
    (RtP <- lift (np_matmul (transpose Rm) P) ;;
     RtPR <- lift (np_matmul RtP Rm) ;;
     lift (svd_full_values np RtPR)).

(** [lambda l: dfFun(l, d, hat1) - df], the function handed to
    [brentq]. *)
Definition objective (d : list scalar) (hat1 : bool) (df : scalar)
  : scalar -> result scalar :=
  fun l => match dfFun l d hat1 with
           | Ok x => Ok (x - df)%Qc
           | Raise e => Raise e
           end.

(** Lines 201 to 221 of [df2lambda]: from the singular values to the
    returned pair. *)
Definition solve_from_singular_values (np : Numpy) (d : list scalar)
  (df lam : option scalar) (hat1 : bool) (lam_max : scalar)
  : M (scalar * scalar) :=
  match lam with
  | Some l =>
      df' <- lift (dfFun l d hat1) ;;
      ret (df', l)
  | None =>
      match df with
      | None => raise (TypeError "'>=' not supported between NoneType and int")
      | Some dfv =>
          if Qc_leb (Z2Qc (Z.of_nat (List.length d))) dfv then ret (dfv, 0%Qc)
          else
            df_for_lam_max <- lift (dfFun lam_max d hat1) ;;
            if Qc_ltb 0%Qc (df_for_lam_max - dfv)%Qc &&
               Qc_ltb (np_sqrt np machine_epsilon) (df_for_lam_max - dfv)%Qc
            then
              simplefilter ActError ;;;
              warn (LambdaMaxTooSmall lam_max (df_for_lam_max - dfv)%Qc) ;;;
              ret (dfv, lam_max)
            else
              l <- lift (brentq np (objective d hat1 dfv) 0%Qc lam_max) ;;
              df_l <- lift (dfFun l d hat1) ;;
              (if Qc_ltb (np_sqrt np machine_epsilon) (Qcabs (df_l - dfv)%Qc)
               then
                 simplefilter ActError ;;;
                 df_l' <- lift (dfFun l d hat1) ;;
                 warn (DfDiffer (df_l' - dfv)%Qc)
               else ret tt) ;;;
              ret (dfv, l)
      end
  end.

(** [df2lambda(dm, P, df, lam, hat1, lam_max)]; [None] is Python's
    [None]. *)
Definition df2lambda (np : Numpy) (dm P : matrix) (df lam : option scalar)
  (hat1 : bool) (lam_max : scalar) : M (scalar * scalar) :=
  match df, lam with
  | None, None =>
      raise (Exception "Either degrees of freedom or lambda has to be provided.")
  | _, _ =>
      let too_large :=
        match df with
        | Some dfv => Qc_leb (Z2Qc (matrix_rank np dm)) dfv
        | None => false
        end in
      match df, too_large with
      | Some dfv, true =>
          simplefilter ActError ;;;
          warn (DfTooLarge dfv (matrix_rank np dm)) ;;;
          ret (dfv, 0%Qc)
      | _, _ =>
          match lam with
          | Some l =>
              if Qc_eq_bool l 0%Qc
              then ret (Z2Qc (matrix_rank np dm), l)
              else
                d <- singular_values np dm P ;;
                solve_from_singular_values np d df lam hat1 lam_max
          | None =>
              d <- singular_values np dm P ;;
              solve_from_singular_values np d df lam hat1 lam_max
          end
      end
  end.

(** The default ceiling [lam_max = 1e+15]. *)
Definition default_lam_max : scalar := Z2Qc 1000000000000000.

(* ================================================================== *)
(** ** Data frames and patsy design matrices                           *)
(* ================================================================== *)

(** A pandas data frame: column labels and the rows of values. *)
Record DataFrame : Type := mk_frame {
  df_columns : list string;
  df_values : matrix
}.

(** The positions of the columns labelled [name]. *)
Fixpoint positions (name : string) (cols : list string) (i : nat) : list nat :=
  match cols with
  | [] => []
  | c :: cs =>
      if String.eqb name c then i :: positions name cs (S i)
      else positions name cs (S i)
  end.

Fixpoint lookup_columns (cols names : list string) : result (list nat) :=
  match names with
  | [] => Ok []
  | n :: ns =>
      match positions n cols 0 with
      | [] => Raise (KeyError n)
      | ps =>
          match lookup_columns cols ns with
          | Ok rest => Ok (ps ++ rest)
          | Raise e => Raise e
          end
      end
  end.

(** [data[names]] for a list of labels. *)
Definition df_getitem (data : DataFrame) (names : list string)
  : result DataFrame :=
  match lookup_columns (df_columns data) names with
  | Raise e => Raise e
  | Ok idx =>
      Ok (mk_frame (map (fun i => nth i (df_columns data) EmptyString) idx)
                   (map (fun row => map (fun i => nth i row 0%Qc) idx)
                        (df_values data)))
  end.

Definition to_numpy (data : DataFrame) : matrix := df_values data.

(** A stateful transform memorised by patsy inside a factor: the
    [Spline] object of [utils.py] with its [penalty_matrices], or an
    object of another class. *)
Inductive transform : Type :=
| SplineObject (penalty_matrices : list matrix)
| OtherObject.

(** A factor of a term together with its [FactorInfo]. *)
Record FactorInfo : Type := mk_factor {
  factor_name : string;
  num_columns : nat;
  pass_bins : list (list string);
  transforms : dict transform
}.

(** A term of the design with its entry of [term_name_slices]. *)
Record Term : Type := mk_term {
  term_name : string;
  term_factors : list FactorInfo;
  term_slice : nat * nat
}.

(** What [dmatrix(..., return_type='dataframe')] returns: a data frame
    carrying a [design_info]. *)
Record DesignMatrix : Type := mk_design {
  dm_frame : DataFrame;
  dm_terms : list Term
}.

(** [dm.shape[1]]. *)
Definition shape1 (dm : DesignMatrix) : nat :=
  List.length (df_columns (dm_frame dm)).

Definition _get_penalty_matrix_from_factor_info (factor_info : FactorInfo)
  : result (option (list matrix)) :=
  if negb (contains "spline" (factor_name factor_info)) then Ok None
  else
    match py_last (pass_bins factor_info) with
    | Raise e => Raise e
    | Ok outer_objects_in_factor =>
        match outer_objects_in_factor with
        | [] => Raise StopIteration
        | obj_name :: _ =>
            match dict_item (transforms factor_info) obj_name with
            | Raise e => Raise e
            | Ok obj =>
                match List.length outer_objects_in_factor =? 1, obj with
                | true, SplineObject P => Ok (Some P)
                | _, _ => Ok None
                end
            end
        end
    end.

(** The degrees of freedom of one parameter: a number or a list. *)
Inductive dfs_arg : Type :=
| DfScalar (df : scalar)
| DfList (l : list scalar).

(** [dfs[spline_counter] if type(dfs) == list else dfs]. *)
Definition df_request (dfs : dfs_arg) (spline_counter : nat) : result scalar :=
  match dfs with
  | DfList l => py_index l spline_counter
  | DfScalar x => Ok x
  end.

Fixpoint foldM {A B} (f : A -> B -> M A) (l : list B) (a : A) : M A :=
  match l with
  | [] => ret a
  | x :: xs => a' <- f a x ;; foldM f xs a'
  end.

(** The state of the loop of [_get_P_from_design_matrix]. *)
Record assembler_state : Type := mk_state {
  big_P : matrix;
  column_counter : nat;
  spline_counter : nat
}.

(** One iteration of the loop over the terms. *)
Definition assemble_term (np : Numpy) (dm : DesignMatrix) (dfs : dfs_arg)
  (st : assembler_state) (term : Term) : M assembler_state :=
  let slice_of_term := term_slice term in
  match term_factors term with
  | factor_info :: nil =>
      P <- lift (_get_penalty_matrix_from_factor_info factor_info) ;;
      match P with
      | Some P =>
          df <- lift (df_request dfs (spline_counter st)) ;;
          let dm_spline :=
            col_slice (df_values (dm_frame dm))
                      (fst slice_of_term) (snd slice_of_term) in
          P0 <- lift (py_index P 0) ;;
          df_lam <- df2lambda np dm_spline P0 (Some df) None true
                      default_lam_max ;;
          big_P' <- lift (set_block (big_P st)
                            (fst slice_of_term) (snd slice_of_term)
                            (np_scale_r P0 (snd df_lam))) ;;
          ret (mk_state big_P'
                 (column_counter st + num_columns factor_info)
                 (spline_counter st + 1))
      | None =>
          ret (mk_state (big_P st)
                 (column_counter st + num_columns factor_info)
                 (spline_counter st))
      end
  | _ => ret st
  end.

Definition _get_P_from_design_matrix (np : Numpy) (dm : DesignMatrix)
  (dfs : dfs_arg) : M matrix :=
  st <- foldM (assemble_term np dm dfs) (dm_terms dm)
          (mk_state (np_zeros (shape1 dm) (shape1 dm)) 0 0) ;;
  ret (big_P st).

(* ================================================================== *)
(** ** Term classification and orthogonalisation                       *)
(* ================================================================== *)

(** The host services next to numpy: patsy's [dmatrix], the names that
    Python's [parser] finds in an expression, and [eval]. *)
Record Host : Type := mk_host {
  (** [dmatrix(formula, data, return_type='dataframe')] *)
  dmatrix : string -> DataFrame -> result DesignMatrix;
  (** [parser.expr(e).compile().co_names] *)
  co_names : string -> result (list string);
  (** [eval(s)], giving the handle of the model it builds *)
  py_eval : string -> result nat
}.

(** Python sets of strings are kept as duplicate-free lists. *)
Definition set_of (l : list string) : list string := nodup string_dec l.
Definition issubset (a b : list string) : bool :=
  forallb (fun x => mem x b) a.

Definition _get_input_features_for_functional_expression
  (co_names : string -> result (list string))
  (functional_expression : string) (feature_names : list string)
  : result (list string) :=
  match co_names functional_expression with
  | Raise e => Raise e
  | Ok names =>
      Ok (filter (fun n => mem n (set_of feature_names)) (set_of names))
  end.

Fixpoint _get_all_input_features_for_term_loop
  (co_names : string -> result (list string))
  (factors : list FactorInfo) (feature_names input_features_term : list string)
  : result (list string) :=
  match factors with
  | [] => Ok input_features_term
  | factor :: rest =>
      match _get_input_features_for_functional_expression co_names
              (factor_name factor) feature_names with
      | Raise e => Raise e
      | Ok input_features_factor =>
          _get_all_input_features_for_term_loop co_names rest feature_names
            (set_of (input_features_term ++ set_of input_features_factor))
      end
  end.

Definition _get_all_input_features_for_term
  (co_names : string -> result (list string)) (term : Term)
  (feature_names : list string) : result (list string) :=
  _get_all_input_features_for_term_loop co_names (term_factors term)
    feature_names [].

(** The three lists of [spline_info], and of [non_spline_info]. *)
Record term_info : Type := mk_info {
  list_of_slices : list (nat * nat);
  list_of_input_features : list (list string);
  list_of_term_names : list string
}.

Definition info_append (i : term_info) (features : list string)
  (sl : nat * nat) (name : string) : term_info :=
  mk_info (list_of_slices i ++ [sl])
          (list_of_input_features i ++ [features])
          (list_of_term_names i ++ [name]).

Fixpoint _get_info_loop (co_names : string -> result (list string))
  (terms : list Term)
  (feature_names : list string) (acc : term_info * term_info)
  : result (term_info * term_info) :=
  match terms with
  | [] => Ok acc
  | term :: rest =>
      let dm_term_name := term_name term in
      match _get_all_input_features_for_term co_names term feature_names with
      | Raise e => Raise e
      | Ok feature_names_spline =>
          let slice_of_term := term_slice term in
          if contains "spline" dm_term_name
          then _get_info_loop co_names rest feature_names
                 (info_append (fst acc) feature_names_spline slice_of_term
                    dm_term_name, snd acc)
          else _get_info_loop co_names rest feature_names
                 (fst acc, info_append (snd acc) feature_names_spline
                             slice_of_term dm_term_name)
      end
  end.

Definition _get_info_from_design_matrix
  (co_names : string -> result (list string))
  (structured_matrix : DesignMatrix) (feature_names : list string)
  : result (term_info * term_info) :=
  _get_info_loop co_names (dm_terms structured_matrix) feature_names
    (mk_info [] [] [], mk_info [] [] []).

Definition _orthogonalize (np : Numpy) (constraints X : matrix)
  : result matrix :=
  match qr_q np constraints with
  | Raise e => Raise e
  | Ok Q =>
      match np_matmul Q (transpose Q) with
      | Raise e => Raise e
      | Ok Projection_Matrix =>
          match np_matmul Projection_Matrix X with
          | Raise e => Raise e
          | Ok PX => np_sub X PX
          end
      end
  end.

(** [np.concatenate(blocks, axis=1)] on a non-empty list of arrays. *)
Fixpoint np_concatenate1 (first : matrix) (others : list matrix)
  : result matrix :=
  match others with
  | [] => Ok first
  | B :: rest =>
      if nrows first =? nrows B
      then np_concatenate1
             (tabulate (nrows first) (ncols first + ncols B) (fun i j =>
                if j <? ncols first then entry first i j
                else entry B i (j - ncols first)))
             rest
      else Raise (ValueError "all the input array dimensions must match")
  end.

(** [frame.iloc[:, a:b] = B]. *)
Definition set_cols (A : matrix) (a b : nat) (B : matrix) : result matrix :=
  let lo := Nat.min a (ncols A) in
  let hi := Nat.max lo (Nat.min b (ncols A)) in
  if (nrows B =? nrows A) && (ncols B =? hi - lo)
  then Ok (tabulate (nrows A) (ncols A) (fun i j =>
             if (lo <=? j) && (j <? hi) then entry B i (j - lo)
             else entry A i j))
  else Raise (ValueError "shape mismatch in assignment").

(** The inner loop: the blocks of the non-spline terms whose features
    all occur among the features of the spline term. *)
Definition gather_constraints (values : matrix)
  (non_spline_info : term_info) (spline_input_features : list string)
  : list matrix :=
  map (fun p => col_slice values (fst (fst p)) (snd (fst p)))
      (filter (fun p => issubset (set_of (snd p)) (set_of spline_input_features))
              (combine (list_of_slices non_spline_info)
                       (list_of_input_features non_spline_info))).

(** One iteration of the outer loop, on the values of the frame. *)
Definition orthogonalize_one (np : Numpy) (non_spline_info : term_info)
  (values : matrix) (sp : (nat * nat) * list string) : result matrix :=
  let '(spline_slice, spline_input_features) := sp in
  let X := col_slice values (fst spline_slice) (snd spline_slice) in
  match gather_constraints values non_spline_info spline_input_features with
  | [] => Ok values
  | C :: Cs =>
      match np_concatenate1 C Cs with
      | Raise e => Raise e
      | Ok constraints =>
          match _orthogonalize np constraints X with
          | Raise e => Raise e
          | Ok constrained_X =>
              set_cols values (fst spline_slice) (snd spline_slice)
                constrained_X
          end
      end
  end.

Fixpoint fold_result {A B} (f : A -> B -> result A) (l : list B) (a : A)
  : result A :=
  match l with
  | [] => Ok a
  | x :: xs =>
      match f a x with
      | Ok a' => fold_result f xs a'
      | Raise e => Raise e
      end
  end.

(** The frame is changed in place; the model returns its new values. *)
Definition _orthogonalize_spline_wrt_non_splines (np : Numpy)
  (structured_matrix : matrix) (spline_info non_spline_info : term_info)
  : result matrix :=
  fold_result (orthogonalize_one np non_spline_info)
    (combine (list_of_slices spline_info) (list_of_input_features spline_info))
    structured_matrix.

(* ================================================================== *)
(** ** [parse_formulas]                                                *)
(* ================================================================== *)

(** The ['model'] entry of a deep model: an expression to be evaluated,
    or a ready model (identified by a handle). *)
Inductive model_spec : Type :=
| ModelString (code : string)
| ModelObject (handle : nat).

Record deep_model : Type := mk_deep {
  model : model_spec;
  output_shape : Z
}.

(** The value of [parsed_formula_contents[param]]. *)
Record parsed_content : Type := mk_content {
  struct_shapes : nat;
  P : matrix;
  deep_models_dict_of : dict nat;
  deep_shapes : dict Z
}.

(** The three dictionaries that [parse_formulas] returns. *)
Record outputs : Type := mk_outputs {
  parsed_formula_contents : dict parsed_content;
  meta_datadict : dict (dict matrix);
  dm_info_dict : dict term_info
}.

(** The state of the loop over the unstructured terms of a parameter. *)
Record unstructured_state : Type := mk_unstructured {
  u_meta : dict matrix;
  u_models : dict nat;
  u_shapes : dict Z
}.

Definition unstructured_step (py_eval : string -> result nat)
  (data : DataFrame)
  (deep_models_dict : dict deep_model) (acc : unstructured_state)
  (term : string) : result unstructured_state :=
  let term_split := split_char "(" term in
  match py_index term_split 0, py_index term_split 1 with
  | Raise e, _ | Ok _, Raise e => Raise e
  | Ok net_name, Ok args =>
      match py_index (split_char ")" args) 0 with
      | Raise e => Raise e
      | Ok feature_names =>
          let feature_names_list := split_char "," feature_names in
          match df_getitem data feature_names_list with
          | Raise e => Raise e
          | Ok unstructured_data =>
              let unstructured_data := to_numpy unstructured_data in
              match dict_item deep_models_dict net_name with
              | Raise e => Raise e
              | Ok dmodel =>
                  match (match model dmodel with
                         | ModelString code => py_eval code
                         | ModelObject m => Ok m
                         end) with
                  | Raise e => Raise e
                  | Ok m =>
                      Ok (mk_unstructured
                            (dict_set (u_meta acc) net_name unstructured_data)
                            (dict_set (u_models acc) net_name m)
                            (dict_set (u_shapes acc) net_name
                               (output_shape dmodel)))
                  end
              end
          end
      end
  end.

(** [if not structured_part: structured_part = '~0']. *)
Definition null_model_if_empty (structured_part : string) : string :=
  match structured_part with
  | EmptyString => "~0"
  | _ => structured_part
  end.

(** The body of the loop over the parameters. *)
Definition parse_param (np : Numpy) (h : Host) (formulas : dict string)
  (data : DataFrame) (deep_models_dict : dict deep_model)
  (degrees_of_freedom : dict dfs_arg) (acc : outputs) (param : string)
  : M outputs :=
  dfs <- lift (dict_item degrees_of_freedom param) ;;
  formula <- lift (dict_item formulas param) ;;
  let '(structured_part, unstructured_terms) :=
    _split_formula formula (dict_keys deep_models_dict) in
  let structured_part := null_model_if_empty structured_part in
  structured_matrix <- lift (dmatrix h structured_part data) ;;
  infos <- lift (_get_info_from_design_matrix (co_names h) structured_matrix
                   (df_columns data)) ;;
  let spline_info := fst infos in
  let non_spline_info := snd infos in
  P <- _get_P_from_design_matrix np structured_matrix dfs ;;
  values <- lift (_orthogonalize_spline_wrt_non_splines np
                    (df_values (dm_frame structured_matrix))
                    spline_info non_spline_info) ;;
  u <- lift (fold_result (unstructured_step (py_eval h) data deep_models_dict)
               unstructured_terms
               (mk_unstructured [("structured", values)] [] [])) ;;
  ret (mk_outputs
         (dict_set (parsed_formula_contents acc) param
            (mk_content (shape1 structured_matrix) P (u_models u) (u_shapes u)))
         (dict_set (meta_datadict acc) param (u_meta u))
         (dict_set (dm_info_dict acc) param spline_info)).

(** [parse_formulas]; [params] is what [family.get_params()] returns. *)
Definition parse_formulas (np : Numpy) (h : Host) (params : list string)
  (formulas : dict string) (data : DataFrame)
  (deep_models_dict : dict deep_model) (degrees_of_freedom : dict dfs_arg)
  : M outputs :=
  let formulas := _checkups params formulas in
  foldM (parse_param np h formulas data deep_models_dict degrees_of_freedom)
        (dict_keys formulas) (mk_outputs [] [] []).

(** The state after [warnings.simplefilter('error')]. *)
Definition escalated (s : wstate) : wstate :=
  mk_wstate (mk_filter ActError (fun _ => true) :: filters s) (shown s).

(** A computation that leaves the warnings state alone. *)
Definition stateless {A} (c : M A) : Prop := forall s, snd (c s) = s.

(** What [_checkups] leaves under a key: the caller's formula, or the
    null model when the caller gave none. *)
Definition checked_formula (formulas : dict string) (param : string) : string :=
  match dict_get formulas param with
  | Some f => f
  | None => "~0"
  end.

(* ================================================================== *)
(** ** Shapes, slices and the penalised terms                          *)
(* ================================================================== *)

(** [A] has [r] rows of [c] entries each. *)
Definition is_shape (A : matrix) (r c : nat) : Prop :=
  List.length A = r /\ Forall (fun row => List.length row = c) A.

(** Membership of a column index in a slice [a:b]. *)
Definition in_slice (sl : nat * nat) (i : nat) : Prop :=
  fst sl <= i < snd sl.

Definition disjoint (sl sl' : nat * nat) : Prop :=
  snd sl <= fst sl' \/ snd sl' <= fst sl.

(** The roughness matrix [P[0]] that the assembler finds for a term: the
    term has exactly one factor and the outermost transform of that
    factor is a [Spline]. *)
Definition roughness_of_term (t : Term) : option matrix :=
  match term_factors t with
  | factor_info :: nil =>
      match _get_penalty_matrix_from_factor_info factor_info with
      | Ok (Some (P0 :: _)) => Some P0
      | _ => None
      end
  | _ => None
  end.

(** The terms with a roughness matrix, in term order. *)
Fixpoint penalised_terms (terms : list Term) : list (Term * matrix) :=
  match terms with
  | [] => []
  | t :: rest =>
      match roughness_of_term t with
      | Some P0 => (t, P0) :: penalised_terms rest
      | None => penalised_terms rest
      end
  end.

(** The invariants patsy gives for these terms: each slice lies inside
    the [n] columns, the roughness matrix is square of the width of the
    slice, and the slices do not overlap. *)
Fixpoint slices_ok (n : nat) (l : list (Term * matrix)) : Prop :=
  match l with
  | [] => True
  | (t, P0) :: rest =>
      let a := fst (term_slice t) in
      let b := snd (term_slice t) in
      a <= b /\ b <= n /\ is_shape P0 (b - a) (b - a) /\
      Forall (fun p => disjoint (term_slice t) (term_slice (fst p))) rest /\
      slices_ok n rest
  end.

(** A smooth term in the sense of the term classifier. *)
Definition is_smooth (t : Term) : bool := contains "spline" (term_name t).

(** The design matrix with only the terms of exactly one factor. *)
Definition single_factor (t : Term) : bool :=
  List.length (term_factors t) =? 1.

Definition keep_single_factor_terms (dm : DesignMatrix) : DesignMatrix :=
  mk_design (dm_frame dm) (filter single_factor (dm_terms dm)).

(** [np.matmul(A[:, a], A[:, b])], the inner product of two columns. *)
Definition col_inner (A : matrix) (a b : nat) : scalar :=
  sum_n (nrows A) (fun i => (entry A i a * entry A i b)%Qc).





(* ================================================================== *)
(** ** The functionals of the specification                            *)
(* ================================================================== *)

(** The hat-matrix trace variant, [sum_i 1 / (1 + lam * d_i)]. *)
Fixpoint df_hat_trace (lam : scalar) (d : list scalar) : scalar :=
  match d with
  | [] => 0%Qc
  | di :: rest => (1 / (1 + lam * di) + df_hat_trace lam rest)%Qc
  end.

(** The sum of the squares [sum_i (1 / (1 + lam * d_i))^2]. *)
Fixpoint df_squares (lam : scalar) (d : list scalar) : scalar :=
  match d with
  | [] => 0%Qc
  | di :: rest =>
      (1 / (1 + lam * di) * (1 / (1 + lam * di)) + df_squares lam rest)%Qc
  end.

(** The unbiased-risk variant of the specification. *)
Definition df_unbiased_risk (lam : scalar) (d : list scalar) : scalar :=
  (Z2Qc 2 * df_hat_trace lam d - df_squares lam d)%Qc.

(** The roughness matrix of the first factor of a term that has one:
    what the specification calls the roughness matrix of a smooth term,
    whatever the number of its factors. *)
Fixpoint first_roughness (factors : list FactorInfo) : option matrix :=
  match factors with
  | [] => None
  | factor_info :: rest =>
      match _get_penalty_matrix_from_factor_info factor_info with
      | Ok (Some (P0 :: _)) => Some P0
      | _ => first_roughness rest
      end
  end.

(** The smooth terms of the classifier that carry a roughness matrix, in
    term order. *)
Fixpoint smooth_terms (terms : list Term) : list (Term * matrix) :=
  match terms with
  | [] => []
  | t :: rest =>
      match is_smooth t, first_roughness (term_factors t) with
      | true, Some P0 => (t, P0) :: smooth_terms rest
      | _, _ => smooth_terms rest
      end
  end.

(** The calibration law read over every smooth term: the block of each
    smooth term is its roughness matrix times the lambda the solver
    gives for its request. *)
Definition every_smooth_block_calibrated (np : Numpy) (dm : DesignMatrix)
  (dfs : dfs_arg) (s : wstate) : Prop :=
  forall bigP s',
    _get_P_from_design_matrix np dm dfs s = (Ok bigP, s') ->
    forall k t P0,
      nth_error (smooth_terms (dm_terms dm)) k = Some (t, P0) ->
      exists df df' lam,
        df_request dfs k = Ok df /\
        df2lambda np
          (col_slice (df_values (dm_frame dm))
             (fst (term_slice t)) (snd (term_slice t)))
          P0 (Some df) None true default_lam_max s = (Ok (df', lam), s) /\
        forall i j,
          in_slice (term_slice t) i -> in_slice (term_slice t) j ->
          entry bigP i j
          = (entry P0 (i - fst (term_slice t)) (j - fst (term_slice t))
             * lam)%Qc.

(* ================================================================== *)
(** ** A worked example                                                *)
(* ================================================================== *)

(** A quadratic B-spline without interior knots on x1 = 0, 1/2, 1: the
    basis is the Bernstein basis, its roughness matrix the Gram matrix
    of the second derivatives 2, -4, 2.  The library answers are those
    of numpy and scipy at these inputs, irrational ones rounded to four
    decimals: rank 3; eigenvalues 0.2156, 1, 1.1594 of X'X; its Cholesky
    factor and the inverse of that factor; singular values 96, 0, 0, so
    that df(lam) = 1 / (1 + 96 lam) + 2 and the target df = 5/2 is met
    at lam = 1/96.  A one by one matrix has its entry as eigenvalue. *)
Module Worked.

Definition X : matrix :=
  [[1%Qc; 0%Qc; 0%Qc];
   [qc 1 4; qc 1 2; qc 1 4];
   [0%Qc; 0%Qc; 1%Qc]].

Definition P0 : matrix :=
  [[Z2Qc 4; Z2Qc (-8); Z2Qc 4];
   [Z2Qc (-8); Z2Qc 16; Z2Qc (-8)];
   [Z2Qc 4; Z2Qc (-8); Z2Qc 4]].

Definition cholesky_factor : matrix :=
  [[qc 10308 10000; qc 1213 10000; qc 606 10000];
   [0%Qc; qc 4851 10000; qc 2425 10000];
   [0%Qc; 0%Qc; 1%Qc]].

Definition cholesky_inverse : matrix :=
  [[qc 9701 10000; qc (-2425) 10000; 0%Qc];
   [0%Qc; qc 20616 10000; qc (-1) 2];
   [0%Qc; 0%Qc; 1%Qc]].

(** A second frame, of four observations with x1 = 0, 6, 8, 14 and
    x2 = 1, 3, 2, 5: the columns Intercept, x1, x2 and the quadratic
    spline basis of x1 (the Bernstein basis at 0, 3/7, 4/7, 1). *)
Definition frame4 : matrix :=
  [[1%Qc; 0%Qc; 1%Qc; 1%Qc; 0%Qc; 0%Qc];
   [1%Qc; Z2Qc 6; Z2Qc 3; qc 16 49; qc 24 49; qc 9 49];
   [1%Qc; Z2Qc 8; Z2Qc 2; qc 9 49; qc 24 49; qc 16 49];
   [1%Qc; Z2Qc 14; Z2Qc 5; 0%Qc; 0%Qc; 1%Qc]].

Definition spline_info4 : term_info :=
  mk_info [(3, 6)] [["x1"]] ["spline(x1, bs='bs', df=3, degree=2)"].

Definition non_spline_info4 : term_info :=
  mk_info [(0, 1); (1, 2); (2, 3)] [[]; ["x1"]; ["x2"]]
    ["Intercept"; "x1"; "x2"].

(** The constraint columns of the spline of x1, Intercept and x1, with
    the factors of their reduced QR factorisation. *)
Definition constraints : matrix :=
  [[1%Qc; 0%Qc]; [1%Qc; Z2Qc 6]; [1%Qc; Z2Qc 8]; [1%Qc; Z2Qc 14]].

Definition Q : matrix :=
  [[qc (-1) 2; qc (-7) 10];
   [qc (-1) 2; qc (-1) 10];
   [qc (-1) 2; qc 1 10];
   [qc (-1) 2; qc 7 10]].

Definition R : matrix := [[Z2Qc (-2); Z2Qc (-14)]; [0%Qc; Z2Qc 10]].

Definition numpy : Numpy :=
  mk_numpy
    (fun A => match A with (_ :: nil) :: nil => 1%Z | _ => 3%Z end)
    (fun A => match A with
              | (a :: nil) :: nil => Ok [a]
              | _ => Ok [qc 2156 10000; 1%Qc; qc 11594 10000]
              end)
    (fun _ => qc 21073 1000000000000)
    (fun _ => Ok cholesky_factor)
    (fun _ _ => Ok cholesky_inverse)
    (fun _ => Ok [Z2Qc 96; 0%Qc; 0%Qc])
    (fun _ => Ok [Z2Qc 96; 0%Qc; 0%Qc])
    (fun _ _ _ => Ok (qc 1 96))
    (fun C => if matrix_eq_dec C constraints then Ok Q else Raise LinAlgError).

(** The interpreter state at start-up: no filter installed by the
    program, nothing shown. *)
Definition s0 : wstate := mk_wstate [] [].

(** The factor of the spline with its memorised [Spline] object, and
    the factor of the plain feature x2. *)
Definition spline_factor : FactorInfo :=
  mk_factor "spline(x1, bs='bs', df=3, degree=2)" 3
    [["_patsy_stobj0__spline__"]]
    [("_patsy_stobj0__spline__", SplineObject [P0])].

Definition x2_factor : FactorInfo := mk_factor "x2" 1 [] [].

Definition spline_term (a b : nat) : Term :=
  mk_term "spline(x1, bs='bs', df=3, degree=2)" [spline_factor] (a, b).

Definition interaction_term (a b : nat) : Term :=
  mk_term "spline(x1, bs='bs', df=3, degree=2):x2"
    [spline_factor; x2_factor] (a, b).

Definition intercept_term : Term := mk_term "Intercept" [] (0, 1).

(** The design of "~ -1 + spline(x1, ...):x2" with x2 = 1, 1, 1. *)
Definition interaction_design : DesignMatrix :=
  mk_design (mk_frame ["s0:x2"; "s1:x2"; "s2:x2"] X) [interaction_term 0 3].

(** The design of "~ 1 + spline(x1, ...) + spline(x1, ...):x2". *)
Definition full_design : DesignMatrix :=
  mk_design
    (mk_frame ["Intercept"; "s0"; "s1"; "s2"; "s0:x2"; "s1:x2"; "s2:x2"]
       (map (fun row => 1%Qc :: row ++ row) X))
    [intercept_term; spline_term 1 4; interaction_term 4 7].

(** The observations: four features on three rows. *)
Definition data : DataFrame :=
  mk_frame ["x1"; "x2"; "x3"; "x4"]
    [[0%Qc; 1%Qc; Z2Qc 5; Z2Qc 7];
     [qc 1 2; 1%Qc; Z2Qc 6; Z2Qc 8];
     [1%Qc; 1%Qc; Z2Qc 4; Z2Qc 9]].

Definition intercept_design : DesignMatrix :=
  mk_design (mk_frame ["Intercept"] [[1%Qc]; [1%Qc]; [1%Qc]]) [intercept_term].

Definition null_design : DesignMatrix :=
  mk_design (mk_frame [] [[]; []; []]) [].

(** patsy and the Python parser on the formulas of the examples. *)
Definition host : Host :=
  mk_host
    (fun formula _ =>
       if String.eqb formula "1" || String.eqb formula "~1"
       then Ok intercept_design
       else if String.eqb formula "0" || String.eqb formula "~0"
       then Ok null_design
       else Raise (Exception "PatsyError"))
    (fun expression =>
       if String.eqb expression "x2" then Ok ["x2"]
       else Ok ["spline"; "x1"])
    (fun _ => Raise (Exception "NameError")).

Definition d1 : deep_model := mk_deep (ModelObject 0) 42.

End Worked.

(* ================================================================== *)
(** ** Further notions used to describe the code                       *)
(* ================================================================== *)

(** The test of the loop of [_split_formula]: the text of a part before
    its first parenthesis is the name of a network. *)
Definition is_external (net_names_list : list string) (part : string) : bool :=
  mem (hd EmptyString (split_char "(" part)) net_names_list.

(** The formula after [replace(' ', '')] and [replace('~', '')]. *)
Definition cleaned (formula : string) : string :=
  remove_char "~" (remove_char " " formula).

(** [c in s] for a character. *)
Fixpoint has_char (c : ascii) (s : string) : bool :=
  match s with
  | EmptyString => false
  | String a rest => Ascii.eqb a c || has_char c rest
  end.

(** [A] equals its transpose, entry by entry. *)
Definition symmetric (A : matrix) : Prop :=
  forall i j, entry A i j = entry A j i.


(** What one pass of the loop of [parse_formulas] computes from the
    formula of a parameter and its degrees of freedom: the content, the
    data and the spline information stored under the parameter. *)
Definition param_entries (np : Numpy) (h : Host) (formula : string)
  (dfs : dfs_arg) (data : DataFrame) (deep_models_dict : dict deep_model)
  (s : wstate) (c : parsed_content) (md : dict matrix) (info : term_info)
  : Prop :=
  exists (sm : DesignMatrix) (infos : term_info * term_info)
         (values : matrix) (u : unstructured_state),
    dmatrix h
      (null_model_if_empty
         (fst (_split_formula formula (dict_keys deep_models_dict)))) data
    = Ok sm /\
    _get_info_from_design_matrix (co_names h) sm (df_columns data)
    = Ok infos /\
    _get_P_from_design_matrix np sm dfs s = (Ok (P c), s) /\
    _orthogonalize_spline_wrt_non_splines np (df_values (dm_frame sm))
      (fst infos) (snd infos) = Ok values /\
    fold_result (unstructured_step (py_eval h) data deep_models_dict)
      (snd (_split_formula formula (dict_keys deep_models_dict)))
      (mk_unstructured [("structured", values)] [] []) = Ok u /\
    c = mk_content (shape1 sm) (P c) (u_models u) (u_shapes u) /\
    md = u_meta u /\ info = fst infos.

(** Further inputs for the examples. *)
Module Cases.

(** The non-spline information of "~ -1 + x2 + spline(x1, ...)" laid
    out on the columns of the second frame. *)
Definition x2_only_info : term_info := mk_info [(2, 3)] [["x2"]] ["x2"].

(** Libraries without a QR routine. *)
Definition numpy_without_qr : Numpy :=
  mk_numpy
    (matrix_rank Worked.numpy)
    (eigh_eigenvalues Worked.numpy)
    (np_sqrt Worked.numpy)
    (cholesky_upper Worked.numpy)
    (solve_triangular Worked.numpy)
    (svd_values Worked.numpy)
    (svd_full_values Worked.numpy)
    (brentq Worked.numpy)
    (fun _ => Raise LinAlgError).

(** The libraries of the worked example with a root finder that stops
    far from the root. *)
Definition sloppy_numpy : Numpy :=
  mk_numpy
    (matrix_rank Worked.numpy)
    (eigh_eigenvalues Worked.numpy)
    (np_sqrt Worked.numpy)
    (cholesky_upper Worked.numpy)
    (solve_triangular Worked.numpy)
    (svd_values Worked.numpy)
    (svd_full_values Worked.numpy)
    (fun _ _ _ => Ok 1%Qc)
    (qr_q Worked.numpy).

(** The design of "~ 1 + x2" on the three observations. *)
Definition linear_design : DesignMatrix :=
  mk_design (mk_frame ["Intercept"; "x2"]
               [[1%Qc; 1%Qc]; [1%Qc; 1%Qc]; [1%Qc; 1%Qc]])
    [Worked.intercept_term; mk_term "x2" [Worked.x2_factor] (1, 2)].

(** The design of "~ 1 + spline_age" for a feature whose name contains
    the word spline: a plain factor, without stateful transform. *)
Definition spline_age_factor : FactorInfo := mk_factor "spline_age" 1 [] [].

Definition spline_age_design : DesignMatrix :=
  mk_design (mk_frame ["Intercept"; "spline_age"]
               [[1%Qc; Z2Qc 30]; [1%Qc; Z2Qc 41]; [1%Qc; Z2Qc 52]])
    [Worked.intercept_term; mk_term "spline_age" [spline_age_factor] (1, 2)].

(** The factor [center(spline(x1, ...))]: its outermost transform is
    not the spline. *)
Definition centered_spline_factor : FactorInfo :=
  mk_factor "center(spline(x1, bs='bs', df=3, degree=2))" 3
    [["_patsy_stobj0__spline__"]; ["_patsy_stobj1__center__"]]
    [("_patsy_stobj0__spline__", SplineObject [Worked.P0]);
     ("_patsy_stobj1__center__", OtherObject)].

End Cases.

(* ================================================================== *)
(** ** Basic facts: the monad, warnings, comparisons                   *)
(* ================================================================== *)

Lemma Qc_ltb_lt (x y : scalar) : Qc_ltb x y = true <-> (x < y)%Qc.
Proof.
  unfold Qc_ltb. rewrite Qclt_alt.
  destruct (x ?= y)%Qc; split; congruence.
Qed.

Lemma Qc_leb_le (x y : scalar) : Qc_leb x y = true <-> (x <= y)%Qc.
Proof.
  unfold Qc_leb. rewrite Qcle_alt.
  destruct (x ?= y)%Qc; split; congruence.
Qed.

Lemma Qc_ltb_ge (x y : scalar) : Qc_ltb x y = false <-> (y <= x)%Qc.
Proof.
  split; intro H.
  - apply Qcnot_lt_le. intro L. apply Qc_ltb_lt in L. congruence.
  - destruct (Qc_ltb x y) eqn:E; [|reflexivity].
    apply Qc_ltb_lt in E. apply Qcle_not_lt in H. contradiction.
Qed.

Lemma Qc_eq_bool_refl (x : scalar) : Qc_eq_bool x x = true.
Proof.
  unfold Qc_eq_bool. destruct (Qc_eq_dec x x); [reflexivity | congruence].
Qed.

(** [simplefilter('error')] followed by [warn] raises the warning,
    whatever the filters were and whatever follows. *)
Lemma escalated_warning {A} (w : warning_msg) (k : M A) (s : wstate) :
  (simplefilter ActError ;;; warn w ;;; k) s
  = (Raise (UserWarning w), escalated s).
Proof. reflexivity. Qed.

Lemma stateless_lift {A} (r : result A) : stateless (lift r).
Proof. intro s. reflexivity. Qed.

Lemma stateless_bind {A B} (c : M A) (k : A -> M B) :
  stateless c -> (forall a, stateless (k a)) -> stateless (bind c k).
Proof.
  intros Hc Hk s. unfold bind. specialize (Hc s).
  destruct (c s) as [[a|e] s1]; simpl in *; subst; [apply Hk | reflexivity].
Qed.

Lemma stateless_try {A} (c h : M A) :
  stateless c -> stateless h -> stateless (try_except c h).
Proof.
  intros Hc Hh s. unfold try_except. specialize (Hc s).
  destruct (c s) as [[a|e] s1]; simpl in *; subst; [reflexivity | apply Hh].
Qed.

Lemma singular_values_stateless (np : Numpy) (dm P0 : matrix) :
  stateless (singular_values np dm P0).
Proof.
  unfold singular_values.
  repeat (first [ apply stateless_lift
                | apply stateless_try
                | apply stateless_bind; [|intro] ]).
Qed.

(** A normal return of the solver leaves the warnings state as it was:
    the state changes only on the way to a raised warning. *)
Lemma solve_ok_state (np : Numpy) (d : list scalar) (df lam : option scalar)
  (hat1 : bool) (lam_max : scalar) (s s' : wstate) (r : scalar * scalar) :
  solve_from_singular_values np d df lam hat1 lam_max s = (Ok r, s') -> s' = s.
Proof.
  unfold solve_from_singular_values.
  destruct lam as [l|].
  - unfold bind, lift, ret. destruct (dfFun l d hat1); congruence.
  - destruct df as [dfv|]; [|unfold raise; congruence].
    destruct (Qc_leb _ dfv); [unfold ret; congruence|].
    unfold bind at 1, lift at 1.
    destruct (dfFun lam_max d hat1) as [dmax|e]; [|congruence].
    match goal with |- context [if ?c then _ else _] => destruct c end.
    + rewrite escalated_warning. congruence.
    + unfold bind at 1, lift at 1.
      destruct (brentq np _ 0%Qc lam_max) as [l|e]; [|congruence].
      unfold bind at 1, lift at 1.
      destruct (dfFun l d hat1) as [x|e]; [|congruence].
      destruct (Qc_ltb _ _).
      * unfold bind, simplefilter, lift, warn. simpl. congruence.
      * unfold bind, ret. congruence.
Qed.

Lemma df2lambda_ok_state (np : Numpy) (dm P0 : matrix) (df lam : option scalar)
  (hat1 : bool) (lam_max : scalar) (s s' : wstate) (r : scalar * scalar) :
  df2lambda np dm P0 df lam hat1 lam_max s = (Ok r, s') -> s' = s.
Proof.
  assert (Hsolve : forall s s' r,
    (d <- singular_values np dm P0 ;;
     solve_from_singular_values np d df lam hat1 lam_max) s = (Ok r, s')
    -> s' = s).
  { clear. intros s s' r. unfold bind at 1.
    pose proof (singular_values_stateless np dm P0 s) as Hs.
    destruct (singular_values np dm P0 s) as [[d|e] s1]; simpl in Hs; subst;
      [apply solve_ok_state | congruence]. }
  unfold df2lambda.
  destruct df as [dfv|], lam as [l|]; try (unfold raise; congruence).
  - destruct (Qc_leb _ dfv).
    + rewrite escalated_warning. congruence.
    + destruct (Qc_eq_bool l 0%Qc); [unfold ret; congruence | apply Hsolve].
  - destruct (Qc_leb _ dfv).
    + rewrite escalated_warning. congruence.
    + apply Hsolve.
  - destruct (Qc_eq_bool l 0%Qc); [unfold ret; congruence | apply Hsolve].
Qed.

(* ================================================================== *)
(** ** The effective-degrees-of-freedom functional                     *)
(* ================================================================== *)

Lemma py_sum_from (l : list scalar) (acc : scalar) :
  fold_left Qcplus l acc = (acc + fold_left Qcplus l 0%Qc)%Qc.
Proof.
  revert acc. induction l as [|x l IH]; intro acc; simpl.
  - ring.
  - rewrite IH. rewrite (IH (0 + x)%Qc). ring.
Qed.

Lemma py_sum_shrink_factors (lam : scalar) (d : list scalar) :
  py_sum (shrink_factors lam d) = df_hat_trace lam d.
Proof.
  unfold py_sum. induction d as [|di d IH]; simpl; [reflexivity|].
  rewrite py_sum_from, IH. ring.
Qed.

(** C4.  With the default flag the functional is the hat-matrix trace
    [sum_i 1/(1 + lam d_i)] of the specification.  With the flag false
    the code applies Python's exclusive-or operator [^] to a float
    array where the square was meant, so the call raises [TypeError]
    and never yields the unbiased-risk value. *)
Theorem dfFun_variants (lam : scalar) (d : list scalar) :
  dfFun lam d true = Ok (df_hat_trace lam d) /\
  dfFun lam d false
    = Raise (TypeError "ufunc 'bitwise_xor' not supported for the input types") /\
  dfFun lam d false <> Ok (df_unbiased_risk lam d).
Proof.
  repeat split.
  - unfold dfFun. now rewrite py_sum_shrink_factors.
  - discriminate.
Qed.

(* ================================================================== *)
(** ** The positive-semi-definite repair                               *)
(* ================================================================== *)

(** C5.  When the smallest eigenvalue, less the tolerance, is below
    -1e-10, the routine forms the shrunk matrix and calls itself with
    one argument although it has two parameters: no matrix is ever
    returned on that branch.  Otherwise the input comes back unchanged. *)
Theorem psd_repair_never_returns (np : Numpy) (A : matrix) (eps : scalar)
  (eigenvalues : list scalar) (m : scalar) :
  eigh_eigenvalues np A = Ok eigenvalues ->
  py_min eigenvalues = Ok m ->
  ((m - np_sqrt np eps < - qc 1 10000000000)%Qc ->
     exists e, make_matrix_positive_semi_definite np A (Some eps) = Raise e) /\
  ((- qc 1 10000000000 <= m - np_sqrt np eps)%Qc ->
     make_matrix_positive_semi_definite np A (Some eps) = Ok A).
Proof.
  intros He Hm. unfold make_matrix_positive_semi_definite.
  rewrite He, Hm. split; intro H.
  - apply Qc_ltb_lt in H. rewrite H.
    destruct (np_add _ _); eauto.
  - apply Qc_ltb_ge in H. now rewrite H.
Qed.

Lemma psd_repair_never_returns_witness :
  exists e,
    make_matrix_positive_semi_definite Worked.numpy [[(-(1))%Qc]]
      (Some machine_epsilon) = Raise e.
Proof.
  refine (proj1 (@psd_repair_never_returns Worked.numpy [[(-(1))%Qc]]
                   machine_epsilon [(-(1))%Qc] (-(1))%Qc _ _) _).
  - reflexivity.
  - reflexivity.
  - apply Qc_ltb_lt. vm_compute. reflexivity.
Defined.

(** On a square input the exception of the repair branch is the
    [TypeError] of the one-argument call. *)
Lemma psd_repair_example :
  make_matrix_positive_semi_definite Worked.numpy [[(-(1))%Qc]]
    (Some machine_epsilon)
  = Raise (TypeError "missing 1 required positional argument: 'machine_epsilon'").
Proof. vm_compute. reflexivity. Qed.

(* ================================================================== *)
(** ** The degrees-of-freedom solver                                   *)
(* ================================================================== *)




(** C8.  When lambda is supplied and equals 0 (and no df at or above
    the rank is supplied with it), the solver returns the rank of the
    design sub-matrix paired with that lambda.  The result does not
    depend on the factorisations or on [brentq]: it is the same for
    every library, also one whose root finder always fails. *)
Theorem lambda_zero_returns_rank (np : Numpy) (dm P0 : matrix)
  (df : option scalar) (l : scalar) (hat1 : bool) (lam_max : scalar)
  (s : wstate) :
  l = 0%Qc ->
  (df = None \/ exists dfv, df = Some dfv /\ (dfv < Z2Qc (matrix_rank np dm))%Qc) ->
  df2lambda np dm P0 df (Some l) hat1 lam_max s
  = (Ok (Z2Qc (matrix_rank np dm), 0%Qc), s).
Proof.
  intros -> Hdf. unfold df2lambda.
  destruct Hdf as [-> | (dfv & -> & Hlt)].
  - rewrite Qc_eq_bool_refl. reflexivity.
  - assert (E : Qc_leb (Z2Qc (matrix_rank np dm)) dfv = false).
    { destruct (Qc_leb _ dfv) eqn:E; [|reflexivity].
      apply Qc_leb_le in E. apply Qcle_not_lt in E. contradiction. }
    rewrite E, Qc_eq_bool_refl. reflexivity.
Qed.

Lemma lambda_zero_returns_rank_witness :
  df2lambda Worked.numpy Worked.X Worked.P0 None (Some 0%Qc) true
    default_lam_max Worked.s0
  = (Ok (Z2Qc 3, 0%Qc), Worked.s0).
Proof.
  apply (@lambda_zero_returns_rank Worked.numpy Worked.X Worked.P0 None
           0%Qc true default_lam_max Worked.s0).
  - reflexivity.
  - left. reflexivity.
Defined.

(** Below the rank and without a lambda, the solver is the search on
    the singular values. *)
Lemma df2lambda_search (np : Numpy) (dm P0 : matrix) (df : scalar)
  (hat1 : bool) (lam_max : scalar) (s : wstate) (d : list scalar) :
  (df < Z2Qc (matrix_rank np dm))%Qc ->
  singular_values np dm P0 s = (Ok d, s) ->
  df2lambda np dm P0 (Some df) None hat1 lam_max s
  = solve_from_singular_values np d (Some df) None hat1 lam_max s.
Proof.
  intros Hlt Hd. unfold df2lambda.
  assert (E : Qc_leb (Z2Qc (matrix_rank np dm)) df = false).
  { destruct (Qc_leb _ df) eqn:E; [|reflexivity].
    apply Qc_leb_le in E. apply Qcle_not_lt in E. contradiction. }
  rewrite E. unfold bind. rewrite Hd. reflexivity.
Qed.





(* ================================================================== *)
(** ** Formulas: defaults and the external-model partition             *)
(* ================================================================== *)

Lemma dict_get_set_same {V} (d : dict V) (k : string) (v : V) :
  dict_get (dict_set d k v) k = Some v.
Proof.
  induction d as [|[k' v'] d IH]; simpl.
  - now rewrite String.eqb_refl.
  - destruct (String.eqb k k') eqn:E; simpl; rewrite E; [reflexivity | exact IH].
Qed.

Lemma dict_get_set_other {V} (d : dict V) (k k' : string) (v : V) :
  k' <> k -> dict_get (dict_set d k v) k' = dict_get d k'.
Proof.
  intro Hne. induction d as [|[k0 v0] d IH]; simpl.
  - apply String.eqb_neq in Hne. now rewrite Hne.
  - destruct (String.eqb k k0) eqn:E; simpl.
    + apply String.eqb_eq in E. subst k0.
      apply String.eqb_neq in Hne. now rewrite Hne.
    + destruct (String.eqb k' k0); [reflexivity | exact IH].
Qed.

Lemma dict_get_mem {V} (d : dict V) (k : string) (v : V) :
  dict_get d k = Some v -> mem k (dict_keys d) = true.
Proof.
  induction d as [|[k' v'] d IH]; simpl; [discriminate|].
  unfold mem in *. simpl.
  destruct (String.eqb k k'); [reflexivity | exact IH].
Qed.

Lemma checkups_loop (formulas : dict string) (params : list string) :
  forall (acc : dict string) (param : string),
    dict_get
      (fold_left
         (fun new_formulas p =>
            match dict_get formulas p with
            | Some f => dict_set new_formulas p f
            | None => dict_set new_formulas p "~0"
            end) params acc) param
    = if mem param params then Some (checked_formula formulas param)
      else dict_get acc param.
Proof.
  induction params as [|p params IH]; intros acc param; simpl; [reflexivity|].
  rewrite IH. unfold mem. simpl.
  destruct (existsb (String.eqb param) params) eqn:E.
  - now rewrite orb_true_r.
  - rewrite orb_false_r. destruct (String.eqb param p) eqn:Ep.
    + apply String.eqb_eq in Ep. subst p. unfold checked_formula.
      destruct (dict_get formulas param); apply dict_get_set_same.
    + apply String.eqb_neq in Ep.
      destruct (dict_get formulas p); now apply dict_get_set_other.
Qed.

Lemma In_mem (x : string) (l : list string) : In x l -> mem x l = true.
Proof.
  intro H. unfold mem. apply existsb_exists. exists x.
  split; [exact H | apply String.eqb_refl].
Qed.



(** C7.  For a family with one parameter whose formula is
    "~1+d1(x2,x1,x3)", where d1 is a registered external model (and no
    external model is called "1"), over a data frame in which x1, x2 and
    x3 each label one column, and with patsy building for "1" the
    intercept-only design it builds for "~1": the matrix recorded for d1
    has the columns x2, x1, x3 of the data in that order, and the
    structured matrix is the design matrix of "~1". *)
Theorem external_model_partition (np : Numpy) (h : Host) (param : string)
  (formulas : dict string) (data : DataFrame)
  (deep_models_dict : dict deep_model) (degrees_of_freedom : dict dfs_arg)
  (dfs : dfs_arg) (dmodel : deep_model) (m : nat) (sm : DesignMatrix)
  (sl : nat * nat) (i1 i2 i3 : nat) (s : wstate) :
  dict_get formulas param = Some "~1+d1(x2,x1,x3)" ->
  dict_get degrees_of_freedom param = Some dfs ->
  dict_get deep_models_dict "d1" = Some dmodel ->
  match model dmodel with
  | ModelString code => py_eval h code
  | ModelObject m' => Ok m'
  end = Ok m ->
  mem "1" (dict_keys deep_models_dict) = false ->
  dmatrix h "~1" data = Ok sm ->
  dmatrix h "1" data = dmatrix h "~1" data ->
  dm_terms sm = [mk_term "Intercept" [] sl] ->
  positions "x1" (df_columns data) 0 = [i1] ->
  positions "x2" (df_columns data) 0 = [i2] ->
  positions "x3" (df_columns data) 0 = [i3] ->
  parse_formulas np h [param] formulas data deep_models_dict
    degrees_of_freedom s
  = (Ok (mk_outputs
           [(param, mk_content (shape1 sm) (np_zeros (shape1 sm) (shape1 sm))
                      [("d1", m)] [("d1", output_shape dmodel)])]
           [(param,
             [("structured", df_values (dm_frame sm));
              ("d1", map (fun row => [nth i2 row 0%Qc; nth i1 row 0%Qc;
                                      nth i3 row 0%Qc])
                         (df_values data))])]
           [(param, mk_info [] [] [])]),
     s).
Proof.
  intros Hf Hdof Hd1 Hm Hone Htilde Hbare Hterms H1 H2 H3.
  pose proof (dict_get_mem _ _ Hd1) as Hmem.
  assert (Hsplit : _split_formula "~1+d1(x2,x1,x3)" (dict_keys deep_models_dict)
                   = ("1", ["d1(x2,x1,x3)"])).
  { unfold _split_formula. simpl. unfold split_step. simpl.
    rewrite Hone. simpl. rewrite Hmem. reflexivity. }
  unfold parse_formulas, _checkups. simpl fold_left. rewrite Hf.
  simpl dict_set. simpl dict_keys. simpl foldM.
  unfold parse_param, dict_item, bind, lift, ret.
  rewrite Hdof. simpl dict_get. rewrite String.eqb_refl, Hsplit.
  change (null_model_if_empty "1") with "1". rewrite Hbare, Htilde.
  unfold _get_info_from_design_matrix, _get_P_from_design_matrix.
  rewrite Hterms. simpl _get_info_loop. simpl foldM.
  unfold bind, ret. cbn [assemble_term term_factors big_P fst snd].
  unfold ret. simpl _orthogonalize_spline_wrt_non_splines.
  simpl fold_result. unfold unstructured_step, py_index.
  simpl split_char. simpl nth_error. cbv iota beta. simpl split_char.
  unfold df_getitem. simpl lookup_columns. rewrite H1, H2, H3. simpl app.
  unfold dict_item. rewrite Hd1, Hm. reflexivity.
Qed.

(* ================================================================== *)
(** ** Entries of arrays                                               *)
(* ================================================================== *)

Lemma nth_map_seq {A} (g : nat -> A) (n i : nat) (d : A) :
  nth i (map g (seq 0 n)) d = if i <? n then g i else d.
Proof.
  destruct (i <? n) eqn:E.
  - apply Nat.ltb_lt in E.
    rewrite (nth_indep _ d (g 0)) by (rewrite length_map, length_seq; exact E).
    rewrite map_nth, seq_nth by exact E. reflexivity.
  - apply Nat.ltb_ge in E. apply nth_overflow.
    rewrite length_map, length_seq. exact E.
Qed.

Lemma entry_tabulate (r c : nat) (f : nat -> nat -> scalar) (i j : nat) :
  entry (tabulate r c f) i j = if (i <? r) && (j <? c) then f i j else 0%Qc.
Proof.
  unfold entry, tabulate. rewrite nth_map_seq.
  destruct (i <? r); simpl.
  - apply nth_map_seq.
  - now destruct j.
Qed.

Lemma is_shape_tabulate (r c : nat) (f : nat -> nat -> scalar) :
  is_shape (tabulate r c f) r c.
Proof.
  unfold is_shape, tabulate. split.
  - now rewrite length_map, length_seq.
  - apply Forall_forall. intros row Hin. apply in_map_iff in Hin.
    destruct Hin as (i & <- & _). now rewrite length_map, length_seq.
Qed.

Lemma is_shape_nrows (A : matrix) (r c : nat) : is_shape A r c -> nrows A = r.
Proof. now intros [H _]. Qed.

Lemma is_shape_ncols (A : matrix) (n : nat) : is_shape A n n -> ncols A = n.
Proof.
  intros [Hl Hr]. destruct A as [|row A]; simpl in *; [exact Hl|].
  now inversion Hr.
Qed.

Lemma entry_outside (A : matrix) (r c i j : nat) :
  is_shape A r c -> r <= i \/ c <= j -> entry A i j = 0%Qc.
Proof.
  intros [Hl Hr] Hout. unfold entry.
  destruct (Nat.lt_ge_cases i r) as [Hi|Hi].
  - destruct Hout as [Hout|Hout]; [lia|].
    apply nth_overflow. rewrite Forall_forall in Hr.
    rewrite (Hr (nth i A [])); [exact Hout|]. apply nth_In. lia.
  - rewrite (nth_overflow A) by lia. now destruct j.
Qed.

Lemma is_shape_scale_r (A : matrix) (c : scalar) (r k : nat) :
  is_shape A r k -> is_shape (np_scale_r A c) r k.
Proof.
  intros [Hl Hr]. unfold np_scale_r. split.
  - now rewrite length_map.
  - apply Forall_map. eapply Forall_impl; [|exact Hr].
    intros row H. now rewrite length_map.
Qed.

Lemma nth_map_fix {A} (f : A -> A) (l : list A) (d : A) (j : nat) :
  f d = d -> nth j (map f l) d = f (nth j l d).
Proof.
  intro Hd. rewrite <- Hd at 1. apply map_nth.
Qed.

Lemma entry_scale_r (A : matrix) (c : scalar) (i j : nat) :
  entry (np_scale_r A c) i j = (entry A i j * c)%Qc.
Proof.
  unfold entry, np_scale_r.
  change (nth i (map (map (fun x : scalar => (x * c)%Qc)) A) [])
    with (nth i (map (map (fun x : scalar => (x * c)%Qc)) A)
            (map (fun x : scalar => (x * c)%Qc) [])).
  rewrite map_nth. apply (nth_map_fix (fun x : scalar => (x * c)%Qc)). ring.
Qed.

(** Writing a block of the right shape inside a square array. *)
Lemma set_block_spec (A B A' : matrix) (n a b : nat) :
  is_shape A n n -> a <= b -> b <= n -> is_shape B (b - a) (b - a) ->
  set_block A a b B = Ok A' ->
  is_shape A' n n /\
  forall i j,
    entry A' i j
    = if (a <=? i) && (i <? b) && (a <=? j) && (j <? b)
      then entry B (i - a) (j - a)
      else entry A i j.
Proof.
  intros HA Hab Hbn HB Hset. unfold set_block in Hset.
  rewrite (is_shape_nrows HA), (is_shape_ncols HA) in Hset.
  rewrite (is_shape_nrows HB), (is_shape_ncols HB) in Hset.
  replace (Nat.min a n) with a in Hset by lia.
  replace (Nat.min b n) with b in Hset by lia.
  replace (Nat.max a b) with b in Hset by lia.
  rewrite Nat.eqb_refl in Hset. simpl in Hset.
  injection Hset as <-. split; [apply is_shape_tabulate|].
  intros i j. rewrite entry_tabulate.
  destruct ((a <=? i) && (i <? b) && (a <=? j) && (j <? b)) eqn:E.
  - repeat (apply andb_true_iff in E; destruct E as [E ?]).
    apply Nat.leb_le in E. apply Nat.ltb_lt in H1, H.
    apply Nat.leb_le in H0.
    assert (Hi : (i <? n) = true) by (apply Nat.ltb_lt; lia).
    assert (Hj : (j <? n) = true) by (apply Nat.ltb_lt; lia).
    rewrite Hi, Hj. simpl. unfold bidx.
    destruct (b - a =? 1) eqn:E1; [|reflexivity].
    apply Nat.eqb_eq in E1.
    replace (i - a) with 0 by lia. replace (j - a) with 0 by lia. reflexivity.
  - destruct ((i <? n) && (j <? n)) eqn:E2; [reflexivity|].
    symmetry. apply (entry_outside HA).
    apply andb_false_iff in E2. destruct E2 as [E2|E2];
      apply Nat.ltb_ge in E2; [left|right]; exact E2.
Qed.

(* ================================================================== *)
(** ** The penalty assembler                                           *)
(* ================================================================== *)

(** One iteration of the loop, read off the roughness matrix of the
    term. *)
Lemma assemble_term_spec (np : Numpy) (dm : DesignMatrix) (dfs : dfs_arg)
  (st st1 : assembler_state) (t : Term) (s s1 : wstate) :
  assemble_term np dm dfs st t s = (Ok st1, s1) ->
  s1 = s /\
  match roughness_of_term t with
  | Some P0 =>
      exists df df' lam,
        df_request dfs (spline_counter st) = Ok df /\
        df2lambda np
          (col_slice (df_values (dm_frame dm))
             (fst (term_slice t)) (snd (term_slice t)))
          P0 (Some df) None true default_lam_max s = (Ok (df', lam), s) /\
        set_block (big_P st) (fst (term_slice t)) (snd (term_slice t))
          (np_scale_r P0 lam) = Ok (big_P st1) /\
        spline_counter st1 = spline_counter st + 1
  | None =>
      big_P st1 = big_P st /\ spline_counter st1 = spline_counter st
  end.
Proof.
  unfold assemble_term, roughness_of_term.
  destruct (term_factors t) as [|fi [|fi' rest]].
  - unfold ret. intro H. injection H as <- <-. auto.
  - unfold bind at 1, lift at 1.
    destruct (_get_penalty_matrix_from_factor_info fi) as [[Ps|]|e];
      [| |discriminate].
    + unfold bind at 1, lift at 1.
      destruct (df_request dfs (spline_counter st)) as [df|e]; [|discriminate].
      unfold bind at 1, lift at 1. unfold py_index.
      destruct Ps as [|P0 Ps]; simpl nth_error; [discriminate|].
      unfold bind at 1.
      destruct (df2lambda np _ P0 (Some df) None true default_lam_max s)
        as [[[df' lam]|e] s2] eqn:Hsolve; [|discriminate].
      pose proof (df2lambda_ok_state _ _ _ _ _ _ _ _ Hsolve) as ->.
      unfold bind, lift, ret. simpl snd.
      destruct (set_block _ _ _ _) as [bigP'|e] eqn:Hset; [|discriminate].
      intro H. injection H as <- <-. split; [reflexivity|].
      exists df, df', lam. simpl. auto.
    + unfold ret. intro H. injection H as <- <-. simpl. auto.
  - unfold ret. intro H. injection H as <- <-. auto.
Qed.

(** The loop over the terms: the blocks of the penalised terms hold the
    scaled roughness matrices, everything else is as before. *)
Lemma foldM_assemble (np : Numpy) (dm : DesignMatrix) (dfs : dfs_arg)
  (n : nat) (s : wstate) :
  forall (terms : list Term) (st st' : assembler_state) (s' : wstate),
    foldM (assemble_term np dm dfs) terms st s = (Ok st', s') ->
    is_shape (big_P st) n n ->
    slices_ok n (penalised_terms terms) ->
    s' = s /\ is_shape (big_P st') n n /\
    spline_counter st'
    = spline_counter st + List.length (penalised_terms terms) /\
    (forall k t P0,
        nth_error (penalised_terms terms) k = Some (t, P0) ->
        exists df df' lam,
          df_request dfs (spline_counter st + k) = Ok df /\
          df2lambda np
            (col_slice (df_values (dm_frame dm))
               (fst (term_slice t)) (snd (term_slice t)))
            P0 (Some df) None true default_lam_max s = (Ok (df', lam), s) /\
          forall i j,
            in_slice (term_slice t) i -> in_slice (term_slice t) j ->
            entry (big_P st') i j
            = (entry P0 (i - fst (term_slice t)) (j - fst (term_slice t))
               * lam)%Qc) /\
    (forall i j,
        (forall t P0, In (t, P0) (penalised_terms terms) ->
                      ~ (in_slice (term_slice t) i /\ in_slice (term_slice t) j)) ->
        entry (big_P st') i j = entry (big_P st) i j).
Proof.
  induction terms as [|t terms IH]; intros st st' s' Hrun Hshape Hok.
  - simpl in Hrun. unfold ret in Hrun. injection Hrun as <- <-.
    simpl. split; [reflexivity|]. split; [exact Hshape|].
    split; [lia|]. split; [|reflexivity].
    intros k t P0 H. destruct k; discriminate.
  - simpl foldM in Hrun. unfold bind in Hrun.
    destruct (assemble_term np dm dfs st t s) as [[st1|e] s1] eqn:Hstep;
      [|discriminate].
    destruct (assemble_term_spec _ _ _ _ _ _ Hstep) as [-> Hspec].
    simpl penalised_terms in *.
    destruct (roughness_of_term t) as [P0|].
    + destruct Hspec as (df & df' & lam & Hdf & Hsolve & Hset & Hcount).
      simpl in Hok. destruct Hok as (Hab & Hbn & HP0 & Hdisj & Hok).
      destruct (set_block_spec Hshape Hab Hbn
                  (is_shape_scale_r lam HP0) Hset) as [Hshape1 Hentry].
      destruct (IH st1 st' s' Hrun Hshape1 Hok)
        as (-> & Hshape' & Hcount' & Hblocks & Hframe).
      split; [reflexivity|]. split; [exact Hshape'|].
      split; [simpl; lia|]. split.
      * intros k t' P0' Hk. destruct k as [|k]; simpl in Hk.
        -- injection Hk as <- <-. exists df, df', lam.
           rewrite Nat.add_0_r. split; [exact Hdf|]. split; [exact Hsolve|].
           intros i j Hi Hj. rewrite Hframe.
           ++ rewrite Hentry, entry_scale_r. unfold in_slice in Hi, Hj.
              replace ((fst (term_slice t) <=? i) && (i <? snd (term_slice t))
                       && (fst (term_slice t) <=? j) && (j <? snd (term_slice t)))
                with true; [reflexivity|].
              symmetry. repeat (apply andb_true_iff; split);
                first [apply Nat.leb_le | apply Nat.ltb_lt]; lia.
           ++ intros t2 P2 Hin [Hi2 _]. rewrite Forall_forall in Hdisj.
              specialize (Hdisj _ Hin). simpl in Hdisj.
              unfold disjoint, in_slice in *. lia.
        -- destruct (Hblocks k t' P0' Hk) as (df2 & df2' & lam2 & H1 & H2 & H3).
           exists df2, df2', lam2. split; [|split; assumption].
           rewrite <- H1, Hcount. f_equal. lia.
      * intros i j Hout. rewrite Hframe.
        -- rewrite Hentry.
           destruct ((fst (term_slice t) <=? i) && (i <? snd (term_slice t))
                     && (fst (term_slice t) <=? j) && (j <? snd (term_slice t)))
             eqn:E; [|reflexivity].
           exfalso. apply (Hout t P0); [left; reflexivity|].
           repeat (apply andb_true_iff in E; destruct E as [E ?]).
           unfold in_slice.
           repeat match goal with
                  | H : (_ <=? _) = true |- _ => apply Nat.leb_le in H
                  | H : (_ <? _) = true |- _ => apply Nat.ltb_lt in H
                  end. lia.
        -- intros t2 P2 Hin. apply (Hout t2 P2). right. exact Hin.
    + destruct Hspec as [HP Hcount].
      assert (Hshape1 : is_shape (big_P st1) n n) by (rewrite HP; exact Hshape).
      destruct (IH st1 st' s' Hrun Hshape1 Hok)
        as (-> & Hshape' & Hcount' & Hblocks & Hframe).
      rewrite Hcount, HP in *.
      split; [reflexivity|]. split; [exact Hshape'|].
      split; [exact Hcount'|]. split; [exact Hblocks | exact Hframe].
Qed.

Lemma entry_zeros (r c i j : nat) : entry (np_zeros r c) i j = 0%Qc.
Proof.
  unfold np_zeros. rewrite entry_tabulate. now destruct (_ && _).
Qed.

Lemma get_P_unfold (np : Numpy) (dm : DesignMatrix) (dfs : dfs_arg)
  (s s' : wstate) (bigP : matrix) :
  _get_P_from_design_matrix np dm dfs s = (Ok bigP, s') ->
  exists st',
    foldM (assemble_term np dm dfs) (dm_terms dm)
      (mk_state (np_zeros (shape1 dm) (shape1 dm)) 0 0) s = (Ok st', s') /\
    big_P st' = bigP.
Proof.
  unfold _get_P_from_design_matrix, bind, ret.
  destruct (foldM _ _ _ s) as [[st'|e] s1]; [|discriminate].
  intro H. injection H as <- <-. eauto.
Qed.

(** C1, as amended.  When the assembler returns a penalty matrix for a
    design whose penalised terms (exactly one factor, outermost
    transform a Spline) have slices inside the columns, not overlapping,
    and roughness matrices of the width of their slice: the matrix is
    square of the column count; the block of the k-th penalised term, in
    term order, is its roughness matrix times the lambda that the solver
    returns for the k-th request (the scalar, or entry k of the list);
    every entry outside those blocks is zero. *)
Theorem penalty_matrix_blocks (np : Numpy) (dm : DesignMatrix)
  (dfs : dfs_arg) (s s' : wstate) (bigP : matrix) :
  _get_P_from_design_matrix np dm dfs s = (Ok bigP, s') ->
  slices_ok (shape1 dm) (penalised_terms (dm_terms dm)) ->
  is_shape bigP (shape1 dm) (shape1 dm) /\
  (forall k t P0,
      nth_error (penalised_terms (dm_terms dm)) k = Some (t, P0) ->
      exists df df' lam,
        df_request dfs k = Ok df /\
        df2lambda np
          (col_slice (df_values (dm_frame dm))
             (fst (term_slice t)) (snd (term_slice t)))
          P0 (Some df) None true default_lam_max s = (Ok (df', lam), s) /\
        forall i j,
          in_slice (term_slice t) i -> in_slice (term_slice t) j ->
          entry bigP i j
          = (entry P0 (i - fst (term_slice t)) (j - fst (term_slice t))
             * lam)%Qc) /\
  (forall i j,
      (forall t P0, In (t, P0) (penalised_terms (dm_terms dm)) ->
                    ~ (in_slice (term_slice t) i /\ in_slice (term_slice t) j)) ->
      entry bigP i j = 0%Qc).
Proof.
  intros Hrun Hok.
  destruct (get_P_unfold _ _ _ _ Hrun) as (st' & Hfold & <-).
  destruct (@foldM_assemble np dm dfs (shape1 dm) s _ _ _ _ Hfold
              (is_shape_tabulate _ _ _) Hok)
    as (_ & Hshape & _ & Hblocks & Hframe).
  split; [exact Hshape|]. split; [exact Hblocks|].
  intros i j Hout. rewrite (Hframe i j Hout). apply entry_zeros.
Qed.

Lemma worked_slices_ok :
  slices_ok (shape1 Worked.full_design)
    (penalised_terms (dm_terms Worked.full_design)).
Proof.
  simpl. unfold is_shape. repeat split; try lia; repeat constructor.
Qed.

Lemma penalty_matrix_blocks_witness :
  exists bigP,
    _get_P_from_design_matrix Worked.numpy Worked.full_design
      (DfList [qc 5 2]) Worked.s0 = (Ok bigP, Worked.s0) /\
    is_shape bigP 7 7 /\
    (forall i j, 1 <= i < 4 -> 1 <= j < 4 ->
                 entry bigP i j = (entry Worked.P0 (i - 1) (j - 1) * qc 1 96)%Qc) /\
    (forall i j, 4 <= i -> entry bigP i j = 0%Qc).
Proof.
  eexists. split; [vm_compute; reflexivity|].
  match goal with
  | |- is_shape ?B _ _ /\ _ =>
      assert (Hrun : _get_P_from_design_matrix Worked.numpy Worked.full_design
                       (DfList [qc 5 2]) Worked.s0 = (Ok B, Worked.s0))
        by (vm_compute; reflexivity)
  end.
  destruct (@penalty_matrix_blocks _ _ _ _ _ _ Hrun worked_slices_ok)
    as (Hshape & Hblocks & Hzero).
  split; [exact Hshape|]. split.
  - destruct (Hblocks 0 (Worked.spline_term 1 4) Worked.P0 eq_refl)
      as (df & df' & lam & Hdf & Hsolve & Hentries).
    assert (lam = qc 1 96) as ->.
    { cbv [df_request py_index nth_error] in Hdf. injection Hdf as <-.
      assert (E : df2lambda Worked.numpy
                    (col_slice (df_values (dm_frame Worked.full_design)) 1 4)
                    Worked.P0 (Some (qc 5 2)) None true default_lam_max
                    Worked.s0
                  = (Ok (qc 5 2, qc 1 96), Worked.s0))
        by (vm_compute; reflexivity).
      simpl term_slice in Hsolve. simpl fst in Hsolve. simpl snd in Hsolve.
      rewrite E in Hsolve. now injection Hsolve. }
    intros i j Hi Hj. apply Hentries; exact Hi || exact Hj.
  - intros i j Hi. apply Hzero. intros t P0 [Hin|[]].
    injection Hin as <- <-. unfold in_slice. simpl. lia.
Defined.

(** C1 as stated fails on a smooth term with two factors: for the design
    of "~ -1 + spline(x1, ...):x2" the solver gives lambda = 1/96 for
    the block of the term, whose roughness matrix has 4 in its corner,
    yet the assembled matrix is zero. *)
Lemma smooth_interaction_block_is_zero :
  ~ every_smooth_block_calibrated Worked.numpy Worked.interaction_design
      (DfScalar (qc 5 2)) Worked.s0.
Proof.
  intro H.
  assert (Hrun : _get_P_from_design_matrix Worked.numpy
                   Worked.interaction_design (DfScalar (qc 5 2)) Worked.s0
                 = (Ok (np_zeros 3 3), Worked.s0)) by reflexivity.
  destruct (H _ _ Hrun 0 (Worked.interaction_term 0 3) Worked.P0 eq_refl)
    as (df & df' & lam & Hdf & Hsolve & Hentries).
  assert (lam = qc 1 96) as ->.
  { cbv [df_request] in Hdf. injection Hdf as <-.
    assert (E : df2lambda Worked.numpy
                  (col_slice (df_values (dm_frame Worked.interaction_design))
                     0 3)
                  Worked.P0 (Some (qc 5 2)) None true default_lam_max
                  Worked.s0
                = (Ok (qc 5 2, qc 1 96), Worked.s0))
      by (vm_compute; reflexivity).
    simpl term_slice in Hsolve. simpl fst in Hsolve. simpl snd in Hsolve.
    rewrite E in Hsolve. now injection Hsolve. }
  assert (Hs : in_slice (term_slice (Worked.interaction_term 0 3)) 0)
    by (unfold in_slice; simpl; lia).
  specialize (Hentries 0 0 Hs Hs). apply (f_equal this) in Hentries.
  vm_compute in Hentries. discriminate.
Qed.

(** C10.  A term that does not have exactly one factor leaves the state
    of the assembler as it was, whatever the libraries do: no solver
    call, no consumed request, no write.  So the assembled matrix is the
    one of the design with those terms removed, and the block of such a
    term is zero when its slice meets no penalised slice. *)
Theorem multi_factor_terms_skipped :
  (forall (np : Numpy) (dm : DesignMatrix) (dfs : dfs_arg)
          (st : assembler_state) (t : Term) (s : wstate),
      List.length (term_factors t) <> 1 ->
      assemble_term np dm dfs st t s = (Ok st, s)) /\
  (forall (np : Numpy) (dm : DesignMatrix) (dfs : dfs_arg) (s : wstate),
      _get_P_from_design_matrix np dm dfs s
      = _get_P_from_design_matrix np (keep_single_factor_terms dm) dfs s) /\
  (forall (np : Numpy) (dm : DesignMatrix) (dfs : dfs_arg) (s s' : wstate)
          (bigP : matrix) (t : Term),
      _get_P_from_design_matrix np dm dfs s = (Ok bigP, s') ->
      slices_ok (shape1 dm) (penalised_terms (dm_terms dm)) ->
      List.length (term_factors t) <> 1 ->
      (forall t' P0, In (t', P0) (penalised_terms (dm_terms dm)) ->
                     disjoint (term_slice t) (term_slice t')) ->
      forall i j, in_slice (term_slice t) i -> in_slice (term_slice t) j ->
                  entry bigP i j = 0%Qc).
Proof.
  assert (Hskip : forall np dm dfs st t s,
             List.length (term_factors t) <> 1 ->
             assemble_term np dm dfs st t s = (Ok st, s)).
  { intros np dm dfs st t s Hlen. unfold assemble_term.
    destruct (term_factors t) as [|fi [|fi' rest]];
      [reflexivity | simpl in Hlen; congruence | reflexivity]. }
  split; [exact Hskip|]. split.
  - intros np dm dfs s. unfold _get_P_from_design_matrix, bind.
    replace (shape1 (keep_single_factor_terms dm)) with (shape1 dm)
      by reflexivity.
    assert (Hfold : forall terms st s0,
               foldM (assemble_term np dm dfs) terms st s0
               = foldM (assemble_term np (keep_single_factor_terms dm) dfs)
                   (filter single_factor terms) st s0).
    { induction terms as [|t terms IH]; intros st s0; [reflexivity|].
      simpl filter. unfold single_factor at 1.
      destruct (List.length (term_factors t) =? 1) eqn:E.
      - simpl foldM. unfold bind.
        replace (assemble_term np (keep_single_factor_terms dm) dfs st t s0)
          with (assemble_term np dm dfs st t s0) by reflexivity.
        destruct (assemble_term np dm dfs st t s0) as [[st1|e] s1];
          [apply IH | reflexivity].
      - apply Nat.eqb_neq in E. simpl foldM. unfold bind.
        rewrite (Hskip np dm dfs st t s0 E). apply IH. }
    simpl dm_terms. now rewrite Hfold.
  - intros np dm dfs s s' bigP t Hrun Hok Hlen Hdisj i j Hi Hj.
    destruct (get_P_unfold _ _ _ _ Hrun) as (st' & Hfold & <-).
    destruct (@foldM_assemble np dm dfs (shape1 dm) s _ _ _ _ Hfold
                (is_shape_tabulate _ _ _) Hok)
      as (_ & _ & _ & _ & Hframe).
    rewrite Hframe; [apply entry_zeros|]. intros t' P0 Hin [Hi' _].
    specialize (Hdisj t' P0 Hin). unfold disjoint, in_slice in *. lia.
Qed.

Lemma multi_factor_terms_skipped_witness :
  assemble_term Worked.numpy Worked.full_design (DfList [qc 5 2])
    (mk_state (np_zeros 7 7) 0 0) (Worked.interaction_term 4 7) Worked.s0
  = (Ok (mk_state (np_zeros 7 7) 0 0), Worked.s0).
Proof.
  apply (proj1 multi_factor_terms_skipped).
  simpl. discriminate.
Defined.

(* ================================================================== *)
(** ** Finite sums                                                     *)
(* ================================================================== *)









(** The algebra of the projection.  With [q] of orthonormal columns and
    [c = q r], the columns of [c] are orthogonal to every column
    [x - q q' x]. *)
Section Projection.

Variables (N K : nat) (q r : nat -> nat -> scalar).

Hypothesis orthonormal :
  forall l m, l < K -> m < K ->
    sum_n N (fun i => (q i l * q i m)%Qc) = if l =? m then 1%Qc else 0%Qc.

Let c (i b : nat) : scalar := sum_n K (fun l => (q i l * r l b)%Qc).
Let p (i k : nat) : scalar := sum_n K (fun m => (q i m * q k m)%Qc).



End Projection.

(* ================================================================== *)
(** ** Entries of slices, products and concatenations                  *)
(* ================================================================== *)










(* ================================================================== *)
(** ** The orthogonaliser                                              *)
(* ================================================================== *)








(** On that frame the spline columns stay non-zero and are not
    orthogonal to the column of x2, whose feature the spline does not
    contain. *)
Example not_orthogonal_to_other_feature :
  match _orthogonalize_spline_wrt_non_splines Worked.numpy Worked.frame4
          Worked.spline_info4 Worked.non_spline_info4 with
  | Ok values' => negb (Qc_eq_bool (col_inner values' 2 4) 0%Qc)
  | Raise _ => false
  end = true.
Proof. vm_compute. reflexivity. Qed.

Lemma external_model_partition_witness :
  parse_formulas Worked.numpy Worked.host ["rate"]
    [("rate", "~1+d1(x2,x1,x3)")] Worked.data [("d1", Worked.d1)]
    [("rate", DfScalar (Z2Qc 4))] Worked.s0
  = (Ok (mk_outputs
           [("rate", mk_content 1 (np_zeros 1 1) [("d1", 0)] [("d1", 42%Z)])]
           [("rate",
             [("structured", [[1%Qc]; [1%Qc]; [1%Qc]]);
              ("d1", [[1%Qc; 0%Qc; Z2Qc 5];
                      [1%Qc; qc 1 2; Z2Qc 6];
                      [1%Qc; 1%Qc; Z2Qc 4]])])]
           [("rate", mk_info [] [] [])]),
     Worked.s0).
Proof.
  exact (@external_model_partition Worked.numpy Worked.host "rate"
           [("rate", "~1+d1(x2,x1,x3)")] Worked.data [("d1", Worked.d1)]
           [("rate", DfScalar (Z2Qc 4))] (DfScalar (Z2Qc 4)) Worked.d1 0
           Worked.intercept_design (0, 1) 0 1 2 Worked.s0
           eq_refl eq_refl eq_refl eq_refl eq_refl eq_refl eq_refl eq_refl
           eq_refl eq_refl eq_refl).
Defined.

(* ================================================================== *)
(** ** Examples                                                        *)
(* ================================================================== *)

Example split_external_only :
  _split_formula "~1+d1(x2,x1,x3)" ["d1"; "d2"] = ("1", ["d1(x2,x1,x3)"]).
Proof. reflexivity. Qed.

Example split_spaces :
  _split_formula "~ 1 + x1 + d2(x1)" ["d1"; "d2"] = ("1+x1", ["d2(x1)"]).
Proof. reflexivity. Qed.

Example split_no_structured :
  _split_formula "~d1(x1)" ["d1"] = ("", ["d1(x1)"]).
Proof. reflexivity. Qed.

(** A formula with no structured part is compiled as the null model:
    no structured column, an empty penalty matrix. *)
Example external_only_formula :
  parse_formulas Worked.numpy Worked.host ["rate"]
    [("rate", "~d1(x1)")] Worked.data [("d1", Worked.d1)]
    [("rate", DfScalar (Z2Qc 4))] Worked.s0
  = (Ok (mk_outputs
           [("rate", mk_content 0 [] [("d1", 0)] [("d1", 42%Z)])]
           [("rate",
             [("structured", [[]; []; []]);
              ("d1", [[0%Qc]; [qc 1 2]; [1%Qc]])])]
           [("rate", mk_info [] [] [])]),
     Worked.s0).
Proof. vm_compute. reflexivity. Qed.

(** An external term without an argument list stops the compilation. *)
Example external_term_without_arguments :
  parse_formulas Worked.numpy Worked.host ["rate"]
    [("rate", "~1+d1")] Worked.data [("d1", Worked.d1)]
    [("rate", DfScalar (Z2Qc 4))] Worked.s0
  = (Raise IndexError, Worked.s0).
Proof. vm_compute. reflexivity. Qed.

(** A parameter without a formula is compiled from the null model: the
    family has loc and scale, the caller gives a formula for loc only. *)
Example missing_formula_is_null_model :
  match parse_formulas Worked.numpy Worked.host ["loc"; "scale"]
          [("loc", "~1")] Worked.data []
          [("loc", DfScalar (Z2Qc 4)); ("scale", DfScalar (Z2Qc 4))]
          Worked.s0 with
  | (Ok out, _) =>
      map (fun kv => (fst kv, struct_shapes (snd kv)))
          (parsed_formula_contents out)
  | (Raise _, _) => []
  end = [("loc", 1); ("scale", 0)].
Proof. vm_compute. reflexivity. Qed.

(* ================================================================== *)
(** ** More on [_checkups]                                             *)
(* ================================================================== *)

Lemma mem_In (x : string) (l : list string) : mem x l = true -> In x l.
Proof.
  unfold mem. intro H. apply existsb_exists in H.
  destruct H as (y & Hy & E). apply String.eqb_eq in E. now subst.
Qed.

Lemma dict_keys_set {V} (d : dict V) (k : string) (v : V) :
  dict_keys (dict_set d k v)
  = if mem k (dict_keys d) then dict_keys d else dict_keys d ++ [k].
Proof.
  unfold dict_keys, mem. induction d as [|[k' v'] d IH]; simpl; [reflexivity|].
  destruct (String.eqb k k'); simpl; [reflexivity|].
  rewrite IH. now destruct (existsb (String.eqb k) (map fst d)).
Qed.

Lemma dict_keys_set_spec {V} (d : dict V) (k : string) (v : V) :
  NoDup (dict_keys d) ->
  NoDup (dict_keys (dict_set d k v)) /\
  forall x, In x (dict_keys (dict_set d k v)) <-> In x (dict_keys d) \/ x = k.
Proof.
  intro Hnd. rewrite dict_keys_set. destruct (mem k (dict_keys d)) eqn:E.
  - split; [exact Hnd|]. intro x. split; [auto|].
    intros [H| ->]; [exact H | now apply mem_In].
  - split.
    + apply NoDup_app; [exact Hnd | repeat constructor; intros [] |].
      intros x Hx [<-|[]]. apply In_mem in Hx. congruence.
    + intro x. rewrite in_app_iff. simpl. intuition.
Qed.

Lemma checkups_fold_keys (formulas : dict string) (params : list string) :
  forall acc : dict string,
    NoDup (dict_keys acc) ->
    NoDup (dict_keys
             (fold_left
                (fun new_formulas p =>
                   match dict_get formulas p with
                   | Some f => dict_set new_formulas p f
                   | None => dict_set new_formulas p "~0"
                   end) params acc)) /\
    forall k,
      In k (dict_keys
              (fold_left
                 (fun new_formulas p =>
                    match dict_get formulas p with
                    | Some f => dict_set new_formulas p f
                    | None => dict_set new_formulas p "~0"
                    end) params acc))
      <-> In k (dict_keys acc) \/ In k params.
Proof.
  induction params as [|p params IH]; intros acc Hnd; simpl.
  - split; [exact Hnd | intuition].
  - assert (Hs : forall v, NoDup (dict_keys (dict_set acc p v)) /\
              (forall x, In x (dict_keys (dict_set acc p v))
                         <-> In x (dict_keys acc) \/ x = p))
      by (intro v; now apply dict_keys_set_spec).
    destruct (dict_get formulas p) as [f|].
    + destruct (Hs f) as [Hnd' Hin]. destruct (IH _ Hnd') as [H1 H2].
      split; [exact H1|]. intro k. rewrite H2, Hin. intuition.
    + destruct (Hs "~0") as [Hnd' Hin]. destruct (IH _ Hnd') as [H1 H2].
      split; [exact H1|]. intro k. rewrite H2, Hin. intuition.
Qed.

Lemma checkups_keys_nodup (params : list string) (formulas : dict string) :
  NoDup (dict_keys (_checkups params formulas)) /\
  forall k, In k (dict_keys (_checkups params formulas)) <-> In k params.
Proof.
  unfold _checkups.
  destruct (checkups_fold_keys formulas params [] (NoDup_nil _)) as [H1 H2].
  split; [exact H1|]. intro k. rewrite H2. simpl. intuition.
Qed.

(** X1.  [_checkups] returns exactly one entry for every distinct
    parameter of the family, and no entry under any other key. *)
Theorem checkups_keys (params : list string) (formulas : dict string) :
  NoDup (dict_keys (_checkups params formulas)) /\
  forall k, In k (dict_keys (_checkups params formulas)) <-> In k params.
Proof.
  unfold _checkups.
  destruct (checkups_fold_keys formulas params [] (NoDup_nil _)) as [H1 H2].
  split; [exact H1|]. intro k. rewrite H2. simpl. intuition.
Qed.

(** X2.  A formula the caller gave for a parameter of the family is
    handed on unchanged, and a formula given under a name that is not a
    parameter of the family is dropped. *)
Theorem checkups_values (params : list string) (formulas : dict string)
  (k : string) :
  (forall f, In k params -> dict_get formulas k = Some f ->
             dict_get (_checkups params formulas) k = Some f) /\
  (~ In k params -> dict_get (_checkups params formulas) k = None).
Proof.
  unfold _checkups. split.
  - intros f Hin Hf. rewrite checkups_loop, (In_mem _ _ Hin).
    unfold checked_formula. now rewrite Hf.
  - intro Hnot. rewrite checkups_loop.
    destruct (mem k params) eqn:E; [|reflexivity].
    apply mem_In in E. contradiction.
Qed.

Lemma checkups_values_witness :
  dict_get (_checkups ["loc"; "scale"] [("scale", "~1+x1"); ("rate", "~1")])
    "scale" = Some "~1+x1" /\
  dict_get (_checkups ["loc"; "scale"] [("scale", "~1+x1"); ("rate", "~1")])
    "rate" = None.
Proof.
  split.
  - apply (proj1 (checkups_values ["loc"; "scale"]
                    [("scale", "~1+x1"); ("rate", "~1")] "scale"));
      [simpl; auto | reflexivity].
  - apply (proj2 (checkups_values ["loc"; "scale"]
                    [("scale", "~1+x1"); ("rate", "~1")] "rate")).
    simpl. intros [H|[H|[]]]; discriminate.
Defined.

(* ================================================================== *)
(** ** More on [_split_formula]                                        *)
(* ================================================================== *)

Lemma split_char_not_nil (sep : ascii) (s : string) : split_char sep s <> [].
Proof.
  destruct s as [|a rest]; simpl; [discriminate|].
  destruct (Ascii.eqb a sep); [discriminate|].
  destruct (split_char sep rest); discriminate.
Qed.

(** Joining what [split] gave restores the string. *)
Lemma join_split_char (sep : ascii) (s : string) :
  join (String sep EmptyString) (split_char sep s) = s.
Proof.
  induction s as [|a rest IH]; simpl; [reflexivity|].
  destruct (Ascii.eqb a sep) eqn:E.
  - apply Ascii.eqb_eq in E. subst a.
    destruct (split_char sep rest) as [|w ws] eqn:Es.
    + now destruct (split_char_not_nil sep rest).
    + simpl. simpl in IH. now rewrite IH.
  - destruct (split_char sep rest) as [|w ws] eqn:Es.
    + now destruct (split_char_not_nil sep rest).
    + destruct ws as [|w' ws]; simpl in *; now rewrite IH.
Qed.

Lemma split_loop_filters (nets : list string) (parts : list string) :
  forall structured unstructured,
    fold_left (split_step nets) parts (structured, unstructured)
    = (structured ++ filter (fun p => negb (is_external nets p)) parts,
       unstructured ++ filter (is_external nets) parts).
Proof.
  induction parts as [|p parts IH]; intros st un; cbn [fold_left filter].
  - now rewrite !app_nil_r.
  - assert (E : split_step nets (st, un) p
                = if is_external nets p then (st, un ++ [p])
                  else (st ++ [p], un)) by reflexivity.
    rewrite E. destruct (is_external nets p); simpl; rewrite IH;
      now rewrite <- !app_assoc.
Qed.

Lemma split_formula_filters (formula : string) (nets : list string) :
  _split_formula formula nets
  = (join "+" (filter (fun p => negb (is_external nets p))
                 (split_char "+" (cleaned formula))),
     filter (is_external nets) (split_char "+" (cleaned formula))).
Proof.
  unfold _split_formula. fold (cleaned formula).
  now rewrite split_loop_filters.
Qed.

(** X3.  [_split_formula] sends every additive part of the cleaned
    formula to exactly one side, keeping the order of the parts on each
    side: the unstructured terms are the parts whose prefix is a network
    name, the structured part joins the others. *)
Theorem split_formula_partition (formula : string) (nets : list string) :
  _split_formula formula nets
  = (join "+" (filter (fun p => negb (is_external nets p))
                 (split_char "+" (cleaned formula))),
     filter (is_external nets) (split_char "+" (cleaned formula))).
Proof.
  unfold _split_formula. fold (cleaned formula).
  now rewrite split_loop_filters.
Qed.

Lemma filter_all {A} (f : A -> bool) (l : list A) :
  (forall x, In x l -> f x = true) -> filter f l = l.
Proof.
  induction l as [|x l IH]; intro H; simpl; [reflexivity|].
  rewrite (H x (or_introl eq_refl)). f_equal. apply IH.
  intros y Hy. apply H. now right.
Qed.

Lemma filter_none {A} (f : A -> bool) (l : list A) :
  (forall x, In x l -> f x = false) -> filter f l = [].
Proof.
  induction l as [|x l IH]; intro H; simpl; [reflexivity|].
  rewrite (H x (or_introl eq_refl)). apply IH.
  intros y Hy. apply H. now right.
Qed.

(** X4.  When no part of a formula names a network, the structured part
    is the whole formula without its spaces and tildes, and there is no
    unstructured term: splitting at the plus signs and joining again
    loses nothing. *)
Theorem split_formula_without_networks (formula : string)
  (nets : list string) :
  (forall p, In p (split_char "+" (cleaned formula)) ->
             is_external nets p = false) ->
  _split_formula formula nets = (cleaned formula, []).
Proof.
  intro H. rewrite split_formula_filters.
  rewrite filter_all by (intros p Hp; now rewrite (H p Hp)).
  rewrite filter_none by exact H.
  now rewrite (join_split_char "+" (cleaned formula)).
Qed.

Lemma split_formula_without_networks_witness :
  _split_formula "~ 1 + x1 + spline(x1, bs='bs', df=9)" ["d1"; "d2"]
  = ("1+x1+spline(x1,bs='bs',df=9)", []).
Proof.
  apply (split_formula_without_networks
           "~ 1 + x1 + spline(x1, bs='bs', df=9)" ["d1"; "d2"]).
  intros p Hp. simpl in Hp.
  destruct Hp as [<-|[<-|[<-|[]]]]; reflexivity.
Defined.

Lemma mem_keys_get {V} (d : dict V) (k : string) :
  mem k (dict_keys d) = true -> exists v, dict_get d k = Some v.
Proof.
  unfold mem, dict_keys. induction d as [|[k' v'] d IH]; simpl; [discriminate|].
  destruct (String.eqb k k'); simpl; [eauto | exact IH].
Qed.

(** X5.  Every unstructured term that [_split_formula] returns for the
    names of a model dictionary starts with a key of that dictionary:
    the look-ups [deep_models_dict[net_name]] of [parse_formulas] cannot
    fail with a missing key. *)
Theorem unstructured_terms_are_registered {V} (formula : string)
  (deep_models_dict : dict V) (term : string) :
  In term (snd (_split_formula formula (dict_keys deep_models_dict))) ->
  exists net_name v,
    py_index (split_char "(" term) 0 = Ok net_name /\
    dict_item deep_models_dict net_name = Ok v.
Proof.
  rewrite split_formula_filters. simpl. intro H.
  apply filter_In in H. destruct H as [_ H]. unfold is_external in H.
  destruct (split_char "(" term) as [|net rest] eqn:E.
  - now destruct (split_char_not_nil "(" term).
  - simpl in H. destruct (mem_keys_get _ _ H) as [v Hv].
    exists net, v. split; [reflexivity|]. unfold dict_item. now rewrite Hv.
Qed.

Lemma unstructured_terms_are_registered_witness :
  exists net_name v,
    py_index (split_char "(" "d1(x2,x1,x3)") 0 = Ok net_name /\
    dict_item [("d1", Worked.d1)] net_name = Ok v.
Proof.
  apply (@unstructured_terms_are_registered deep_model "~1+d1(x2,x1,x3)"
           [("d1", Worked.d1)] "d1(x2,x1,x3)").
  simpl. auto.
Defined.

(* ================================================================== *)
(** ** More on the repair routine and the solver                       *)
(* ================================================================== *)

(** X6.  Whenever [make_matrix_positive_semi_definite] returns, it
    returns its argument unchanged: no shrunk matrix ever leaves the
    routine. *)
Theorem psd_repair_returns_input (np : Numpy) (A B : matrix)
  (eps : option scalar) :
  make_matrix_positive_semi_definite np A eps = Ok B -> B = A.
Proof.
  unfold make_matrix_positive_semi_definite.
  destruct eps as [e|]; [|discriminate].
  destruct (eigh_eigenvalues np A) as [ev|]; [|discriminate].
  destruct (py_min ev) as [m|]; [|discriminate].
  destruct (Qc_ltb _ _).
  - destruct (np_add _ _); discriminate.
  - intro H. now injection H.
Qed.

Lemma psd_repair_returns_input_witness :
  [[Z2Qc 2]] = [[Z2Qc 2]].
Proof.
  apply (@psd_repair_returns_input Worked.numpy [[Z2Qc 2]] [[Z2Qc 2]]
           (Some machine_epsilon)).
  vm_compute. reflexivity.
Defined.

(** The effect of the search on the warnings state. *)
Lemma solve_state_effect (np : Numpy) (d : list scalar)
  (df lam : option scalar) (hat1 : bool) (lam_max : scalar) (s s' : wstate)
  (r : result (scalar * scalar)) :
  solve_from_singular_values np d df lam hat1 lam_max s = (r, s') ->
  s' = s \/ (s' = escalated s /\ exists w, r = Raise (UserWarning w)).
Proof.
  unfold solve_from_singular_values.
  destruct lam as [l|].
  - unfold bind, lift, ret. destruct (dfFun l d hat1);
      intro H; injection H as <- <-; now left.
  - destruct df as [dfv|];
      [|unfold raise; intro H; injection H as <- <-; now left].
    destruct (Qc_leb _ dfv);
      [unfold ret; intro H; injection H as <- <-; now left|].
    unfold bind at 1, lift at 1.
    destruct (dfFun lam_max d hat1) as [dmax|e];
      [|intro H; injection H as <- <-; now left].
    match goal with |- context [if ?c then _ else _] => destruct c end.
    + rewrite escalated_warning. intro H. injection H as <- <-.
      right. eauto.
    + unfold bind at 1, lift at 1.
      destruct (brentq np _ 0%Qc lam_max) as [l|e];
        [|intro H; injection H as <- <-; now left].
      unfold bind at 1, lift at 1.
      destruct (dfFun l d hat1) as [x|e] eqn:Ex;
        [|intro H; injection H as <- <-; now left].
      destruct (Qc_ltb _ _).
      * unfold bind, simplefilter, lift, warn. simpl.
        intro H. injection H as <- <-. right. eauto.
      * unfold bind, ret. intro H. injection H as <- <-. now left.
Qed.

(** X7.  [df2lambda] touches the warnings filters only on the way to a
    raised warning: either the state is as before, or the result is a
    raised warning and the [error] filter stays installed; from then on
    every warning of the process is raised as an exception. *)
Theorem df2lambda_state_effect (np : Numpy) (dm P0 : matrix)
  (df lam : option scalar) (hat1 : bool) (lam_max : scalar) (s s' : wstate)
  (r : result (scalar * scalar)) :
  df2lambda np dm P0 df lam hat1 lam_max s = (r, s') ->
  (s' = s \/ (s' = escalated s /\ exists w, r = Raise (UserWarning w))) /\
  (forall w, warn w (escalated s) = (Raise (UserWarning w), escalated s)).
Proof.
  intro Hrun. split; [|reflexivity].
  assert (Hsolve :
    (d <- singular_values np dm P0 ;;
     solve_from_singular_values np d df lam hat1 lam_max) s = (r, s') ->
    s' = s \/ (s' = escalated s /\ exists w, r = Raise (UserWarning w))).
  { unfold bind at 1.
    pose proof (singular_values_stateless np dm P0 s) as Hs.
    destruct (singular_values np dm P0 s) as [[d|e] s1]; simpl in Hs; subst.
    - apply solve_state_effect.
    - intro H. injection H as <- <-. now left. }
  revert Hrun. unfold df2lambda.
  destruct df as [dfv|], lam as [l|].
  - destruct (Qc_leb _ dfv).
    + rewrite escalated_warning. intro H. injection H as <- <-. right. eauto.
    + destruct (Qc_eq_bool l 0%Qc); [|exact Hsolve].
      unfold ret. intro H. injection H as <- <-. now left.
  - destruct (Qc_leb _ dfv).
    + rewrite escalated_warning. intro H. injection H as <- <-. right. eauto.
    + exact Hsolve.
  - destruct (Qc_eq_bool l 0%Qc); [|exact Hsolve].
    unfold ret. intro H. injection H as <- <-. now left.
  - unfold raise. intro H. injection H as <- <-. now left.
Qed.

Lemma df2lambda_state_effect_witness :
  (escalated Worked.s0 = Worked.s0 \/
   (escalated Worked.s0 = escalated Worked.s0 /\
    exists w, Raise (UserWarning (DfTooLarge (Z2Qc 4) 3))
              = @Raise (scalar * scalar) (UserWarning w))) /\
  (forall w, warn w (escalated Worked.s0)
             = (Raise (UserWarning w), escalated Worked.s0)).
Proof.
  apply (@df2lambda_state_effect Worked.numpy Worked.X Worked.P0
           (Some (Z2Qc 4)) None true default_lam_max Worked.s0
           (escalated Worked.s0)
           (Raise (UserWarning (DfTooLarge (Z2Qc 4) 3)))).
  vm_compute. reflexivity.
Defined.

(** X8.  With the unbiased-risk variant selected ([hat1] false) the
    solver can only return with lambda = 0, through one of its shortcuts:
    every evaluation of the functional fails, so neither a given non-zero
    lambda is converted nor a lambda searched. *)
Theorem unbiased_variant_returns_only_zero (np : Numpy) (dm P0 : matrix)
  (df lam : option scalar) (lam_max x l : scalar) (s s' : wstate) :
  df2lambda np dm P0 df lam false lam_max s = (Ok (x, l), s') -> l = 0%Qc.
Proof.
  assert (Hsolve :
    (d <- singular_values np dm P0 ;;
     solve_from_singular_values np d df lam false lam_max) s
    = (Ok (x, l), s') -> l = 0%Qc).
  { unfold bind at 1.
    destruct (singular_values np dm P0 s) as [[d|e] s1]; [|discriminate].
    unfold solve_from_singular_values.
    destruct lam as [l0|].
    - unfold bind, lift. simpl. discriminate.
    - destruct df as [dfv|]; [|discriminate].
      destruct (Qc_leb _ dfv).
      + unfold ret. intro H. now injection H.
      + unfold bind, lift. simpl. discriminate. }
  unfold df2lambda.
  destruct df as [dfv|], lam as [l0|]; try discriminate.
  - destruct (Qc_leb _ dfv); [rewrite escalated_warning; discriminate|].
    destruct (Qc_eq_bool l0 0%Qc) eqn:E; [|exact Hsolve].
    apply Qc_eq_bool_correct in E. unfold ret. intro H. injection H. congruence.
  - destruct (Qc_leb _ dfv); [rewrite escalated_warning; discriminate|].
    exact Hsolve.
  - destruct (Qc_eq_bool l0 0%Qc) eqn:E; [|exact Hsolve].
    apply Qc_eq_bool_correct in E. unfold ret. intro H. injection H. congruence.
Qed.

Lemma unbiased_variant_returns_only_zero_witness : 0%Qc = 0%Qc.
Proof.
  apply (@unbiased_variant_returns_only_zero Worked.numpy Worked.X Worked.P0
           None (Some 0%Qc) default_lam_max (Z2Qc 3) 0%Qc
           Worked.s0 Worked.s0).
  vm_compute. reflexivity.
Defined.

Lemma Qc_leb_false_lt (x y : scalar) : (y < x)%Qc -> Qc_leb x y = false.
Proof.
  intro H. destruct (Qc_leb x y) eqn:E; [|reflexivity].
  apply Qc_leb_le in E. apply Qcle_not_lt in E. contradiction.
Qed.

(** What a returned pair of the search satisfies. *)
Lemma search_sound (np : Numpy) (d : list scalar) (df : scalar)
  (hat1 : bool) (lam_max df' l : scalar) (s s' : wstate) :
  (df < Z2Qc (Z.of_nat (List.length d)))%Qc ->
  solve_from_singular_values np d (Some df) None hat1 lam_max s
  = (Ok (df', l), s') ->
  df' = df /\
  exists x, dfFun l d hat1 = Ok x /\
            (Qcabs (x - df) <= np_sqrt np machine_epsilon)%Qc.
Proof.
  intros Hlen. unfold solve_from_singular_values.
  rewrite (Qc_leb_false_lt Hlen).
  unfold bind at 1, lift at 1.
  destruct (dfFun lam_max d hat1) as [dmax|e]; [|discriminate].
  destruct (_ && _); [rewrite escalated_warning; discriminate|].
  unfold bind at 1, lift at 1.
  destruct (brentq np _ _ _) as [l0|e]; [|discriminate].
  unfold bind at 1, lift at 1.
  destruct (dfFun l0 d hat1) as [x|e] eqn:Ex; [|discriminate].
  destruct (Qc_ltb _ _) eqn:Et;
    [unfold bind, simplefilter, lift, warn; simpl; discriminate|].
  unfold bind, ret. intro H. injection H as <- <- <-.
  split; [reflexivity|]. exists x. split; [exact Ex|].
  apply Qc_ltb_ge. exact Et.
Qed.

(** X9.  The two directions of the solver compose: when a target df
    below the rank and below the number of singular values is converted
    to a non-zero lambda, converting that lambda back with a second call
    returns a df within sqrt(machine epsilon) of the target, with the
    same lambda. *)
Theorem solver_two_call_roundtrip (np : Numpy) (dm P0 : matrix)
  (df : scalar) (hat1 : bool) (lam_max df' l : scalar) (s s' : wstate)
  (d : list scalar) :
  (df < Z2Qc (matrix_rank np dm))%Qc ->
  singular_values np dm P0 s = (Ok d, s) ->
  (df < Z2Qc (Z.of_nat (List.length d)))%Qc ->
  df2lambda np dm P0 (Some df) None hat1 lam_max s = (Ok (df', l), s') ->
  l <> 0%Qc ->
  exists x,
    df2lambda np dm P0 None (Some l) hat1 lam_max s = (Ok (x, l), s) /\
    (Qcabs (x - df) <= np_sqrt np machine_epsilon)%Qc.
Proof.
  intros Hrank Hd Hlen Hrun Hl.
  rewrite (@df2lambda_search np dm P0 df hat1 lam_max s d Hrank Hd) in Hrun.
  destruct (@search_sound np d df hat1 lam_max df' l s s' Hlen Hrun)
    as (_ & x & Hx & Htol).
  exists x. split; [|exact Htol].
  unfold df2lambda.
  assert (E : Qc_eq_bool l 0%Qc = false).
  { destruct (Qc_eq_bool l 0%Qc) eqn:E; [|reflexivity].
    apply Qc_eq_bool_correct in E. contradiction. }
  rewrite E. unfold bind at 1. rewrite Hd.
  unfold solve_from_singular_values, bind, lift, ret. now rewrite Hx.
Qed.

Lemma solver_two_call_roundtrip_witness :
  exists x,
    df2lambda Worked.numpy Worked.X Worked.P0 None (Some (qc 1 96)) true
      default_lam_max Worked.s0 = (Ok (x, qc 1 96), Worked.s0) /\
    (Qcabs (x - qc 5 2) <= np_sqrt Worked.numpy machine_epsilon)%Qc.
Proof.
  apply (@solver_two_call_roundtrip Worked.numpy Worked.X Worked.P0 (qc 5 2)
           true default_lam_max (qc 5 2) (qc 1 96) Worked.s0 Worked.s0
           [Z2Qc 96; 0%Qc; 0%Qc]).
  - apply Qc_ltb_lt. vm_compute. reflexivity.
  - vm_compute. reflexivity.
  - apply Qc_ltb_lt. vm_compute. reflexivity.
  - vm_compute. reflexivity.
  - intro H. apply (f_equal this) in H. vm_compute in H. discriminate.
Defined.

(** X10.  When the root finder comes back with a lambda at which the
    functional misses a feasible target by more than sqrt(machine
    epsilon), the solver raises the precision warning with that
    deviation instead of returning the pair. *)
Theorem imprecise_root_raises (np : Numpy) (dm P0 : matrix) (df : scalar)
  (hat1 : bool) (lam_max dmax l x : scalar) (s : wstate) (d : list scalar) :
  (df < Z2Qc (matrix_rank np dm))%Qc ->
  singular_values np dm P0 s = (Ok d, s) ->
  (df < Z2Qc (Z.of_nat (List.length d)))%Qc ->
  dfFun lam_max d hat1 = Ok dmax ->
  ~ (0 < dmax - df /\ np_sqrt np machine_epsilon < dmax - df)%Qc ->
  brentq np (objective d hat1 df) 0%Qc lam_max = Ok l ->
  dfFun l d hat1 = Ok x ->
  (np_sqrt np machine_epsilon < Qcabs (x - df))%Qc ->
  df2lambda np dm P0 (Some df) None hat1 lam_max s
  = (Raise (UserWarning (DfDiffer (x - df)%Qc)), escalated s).
Proof.
  intros Hrank Hd Hlen Hmax Hfeas Hroot Hx Hdev.
  rewrite (@df2lambda_search np dm P0 df hat1 lam_max s d Hrank Hd).
  unfold solve_from_singular_values. rewrite (Qc_leb_false_lt Hlen).
  unfold bind at 1, lift at 1. rewrite Hmax.
  assert (F : Qc_ltb 0%Qc (dmax - df)%Qc &&
              Qc_ltb (np_sqrt np machine_epsilon) (dmax - df)%Qc = false).
  { destruct (_ && _) eqn:F; [|reflexivity].
    apply andb_true_iff in F. destruct F as [F1 F2].
    apply Qc_ltb_lt in F1, F2. exfalso. apply Hfeas. split; assumption. }
  rewrite F. unfold bind at 1, lift at 1. rewrite Hroot.
  unfold bind at 1, lift at 1. rewrite Hx.
  apply Qc_ltb_lt in Hdev. rewrite Hdev.
  unfold bind, simplefilter, lift, warn. reflexivity.
Qed.

Lemma imprecise_root_raises_witness :
  exists dev,
    df2lambda Cases.sloppy_numpy Worked.X Worked.P0 (Some (qc 5 2)) None true
      default_lam_max Worked.s0
    = (Raise (UserWarning (DfDiffer dev)), escalated Worked.s0).
Proof.
  eexists.
  eapply (@imprecise_root_raises Cases.sloppy_numpy Worked.X Worked.P0
            (qc 5 2) true default_lam_max _ 1%Qc _ Worked.s0
            [Z2Qc 96; 0%Qc; 0%Qc]).
  - apply Qc_ltb_lt. vm_compute. reflexivity.
  - vm_compute. reflexivity.
  - apply Qc_ltb_lt. vm_compute. reflexivity.
  - reflexivity.
  - intros [H _]. apply Qc_ltb_lt in H. vm_compute in H. discriminate.
  - reflexivity.
  - reflexivity.
  - apply Qc_ltb_lt. vm_compute. reflexivity.
Defined.

(* ================================================================== *)
(** ** The df functional as a function of lambda                       *)
(* ================================================================== *)

Lemma Qc_0_lt_1 : (0 < 1)%Qc.
Proof. reflexivity. Qed.

Lemma Qc_pos_of_ge_1 (a : scalar) : (1 <= a)%Qc -> (0 < a)%Qc.
Proof. intro H. exact (Qclt_le_trans _ _ _ Qc_0_lt_1 H). Qed.

Lemma Qc_inv_antitone (a b : scalar) :
  (1 <= a)%Qc -> (a <= b)%Qc -> (1 / b <= 1 / a)%Qc.
Proof.
  intros Ha Hab.
  assert (Ha0 : (0 < a)%Qc) by now apply Qc_pos_of_ge_1.
  assert (Hb0 : (0 < b)%Qc) by exact (Qclt_le_trans _ _ _ Ha0 Hab).
  assert (Hab0 : (0 < a * b)%Qc).
  { rewrite <- (Qcmult_0_l b). now apply Qcmult_lt_compat_r. }
  apply Qcmult_lt_0_le_reg_r with (z := (a * b)%Qc); [exact Hab0|].
  assert (Hna : a <> 0%Qc) by (apply not_eq_sym, Qclt_not_eq; exact Ha0).
  assert (Hnb : b <> 0%Qc) by (apply not_eq_sym, Qclt_not_eq; exact Hb0).
  replace (1 / b * (a * b))%Qc with a by (field; exact Hnb).
  replace (1 / a * (a * b))%Qc with b by (field; exact Hna).
  exact Hab.
Qed.

Lemma Qc_inv_nonneg (a : scalar) : (1 <= a)%Qc -> (0 <= 1 / a)%Qc.
Proof.
  intro Ha. assert (Ha0 : (0 < a)%Qc) by now apply Qc_pos_of_ge_1.
  apply Qcmult_lt_0_le_reg_r with (z := a); [exact Ha0|].
  assert (Hna : a <> 0%Qc) by (apply not_eq_sym, Qclt_not_eq; exact Ha0).
  rewrite Qcmult_0_l. replace (1 / a * a)%Qc with 1%Qc by (field; exact Hna).
  apply Qclt_le_weak, Qc_0_lt_1.
Qed.

Lemma denominator_ge_1 (lam di : scalar) :
  (0 <= lam)%Qc -> (0 <= di)%Qc -> (1 <= 1 + lam * di)%Qc.
Proof.
  intros Hl Hd.
  replace 1%Qc with (1 + 0)%Qc at 1 by ring.
  apply Qcplus_le_compat; [apply Qcle_refl|].
  rewrite <- (Qcmult_0_l di). now apply Qcmult_le_compat_r.
Qed.

Lemma Z2Qc_succ (n : nat) :
  Z2Qc (Z.of_nat (S n)) = (1 + Z2Qc (Z.of_nat n))%Qc.
Proof.
  unfold Z2Qc, Qcplus. apply Q2Qc_eq_iff. cbn [this Q2Qc].
  rewrite !Qred_correct.
  rewrite Nat2Z.inj_succ. unfold Z.succ. rewrite inject_Z_plus.
  rewrite Qplus_comm. reflexivity.
Qed.

Lemma df_hat_trace_monotone (lam1 lam2 : scalar) (d : list scalar) :
  (forall di, In di d -> (0 <= di)%Qc) ->
  (0 <= lam1)%Qc -> (lam1 <= lam2)%Qc ->
  (df_hat_trace lam2 d <= df_hat_trace lam1 d)%Qc.
Proof.
  intros Hd H1 H12. induction d as [|di d IH]; simpl; [apply Qcle_refl|].
  assert (Hdi : (0 <= di)%Qc) by (apply Hd; now left).
  apply Qcplus_le_compat.
  - apply Qc_inv_antitone; [now apply denominator_ge_1|].
    apply Qcplus_le_compat; [apply Qcle_refl|].
    now apply Qcmult_le_compat_r.
  - apply IH. intros x Hx. apply Hd. now right.
Qed.

Lemma df_hat_trace_range (lam : scalar) (d : list scalar) :
  (forall di, In di d -> (0 <= di)%Qc) -> (0 <= lam)%Qc ->
  (0 <= df_hat_trace lam d)%Qc /\
  (df_hat_trace lam d <= Z2Qc (Z.of_nat (List.length d)))%Qc.
Proof.
  intros Hd Hl. induction d as [|di d IH].
  - simpl. split; apply Qcle_refl.
  - assert (Hdi : (0 <= di)%Qc) by (apply Hd; now left).
    destruct IH as [IH1 IH2]; [intros x Hx; apply Hd; now right|].
    pose proof (denominator_ge_1 Hl Hdi) as Hden.
    cbn [df_hat_trace List.length]. rewrite Z2Qc_succ. split.
    + replace 0%Qc with (0 + 0)%Qc by ring.
      apply Qcplus_le_compat; [now apply Qc_inv_nonneg | exact IH1].
    + apply Qcplus_le_compat; [|exact IH2].
      replace 1%Qc with (1 / 1)%Qc at 3 by (field; discriminate).
      apply Qc_inv_antitone; [apply Qcle_refl | exact Hden].
Qed.

Lemma df_hat_trace_at_zero (d : list scalar) :
  df_hat_trace 0%Qc d = Z2Qc (Z.of_nat (List.length d)).
Proof.
  induction d as [|di d IH]; [reflexivity|].
  cbn [df_hat_trace List.length]. rewrite Z2Qc_succ, IH.
  rewrite Qcmult_0_l, Qcplus_0_r. f_equal.
Qed.

(** X11.  For non-negative singular values the functional of the
    default variant does not increase with lambda: a larger penalty
    never gives more degrees of freedom. *)
Theorem dfFun_monotone (lam1 lam2 : scalar) (d : list scalar) :
  (forall di, In di d -> (0 <= di)%Qc) ->
  (0 <= lam1)%Qc -> (lam1 <= lam2)%Qc ->
  exists x1 x2,
    dfFun lam1 d true = Ok x1 /\ dfFun lam2 d true = Ok x2 /\ (x2 <= x1)%Qc.
Proof.
  intros Hd H1 H12.
  exists (df_hat_trace lam1 d), (df_hat_trace lam2 d).
  unfold dfFun. rewrite !py_sum_shrink_factors.
  repeat split. now apply df_hat_trace_monotone.
Qed.

Lemma dfFun_monotone_witness :
  exists x1 x2,
    dfFun (qc 1 96) [Z2Qc 96; 0%Qc; 0%Qc] true = Ok x1 /\
    dfFun 1%Qc [Z2Qc 96; 0%Qc; 0%Qc] true = Ok x2 /\ (x2 <= x1)%Qc.
Proof.
  apply (@dfFun_monotone (qc 1 96) 1%Qc [Z2Qc 96; 0%Qc; 0%Qc]).
  - intros di [<-|[<-|[<-|[]]]]; apply Qc_leb_le; vm_compute; reflexivity.
  - apply Qc_leb_le. vm_compute. reflexivity.
  - apply Qc_leb_le. vm_compute. reflexivity.
Defined.

(** X12.  At lambda = 0 the functional of the default variant is the
    number of singular values, and for non-negative singular values and
    lambda it stays between 0 and that number. *)
Theorem dfFun_range (lam : scalar) (d : list scalar) :
  dfFun 0%Qc d true = Ok (Z2Qc (Z.of_nat (List.length d))) /\
  ((forall di, In di d -> (0 <= di)%Qc) -> (0 <= lam)%Qc ->
   exists x, dfFun lam d true = Ok x /\
             (0 <= x)%Qc /\ (x <= Z2Qc (Z.of_nat (List.length d)))%Qc).
Proof.
  unfold dfFun. rewrite !py_sum_shrink_factors. split.
  - now rewrite df_hat_trace_at_zero.
  - intros Hd Hl. exists (df_hat_trace lam d). split; [reflexivity|].
    now apply df_hat_trace_range.
Qed.

Lemma dfFun_range_witness :
  exists x, dfFun (qc 1 96) [Z2Qc 96; 0%Qc; 0%Qc] true = Ok x /\
            (0 <= x)%Qc /\ (x <= Z2Qc 3)%Qc.
Proof.
  apply (proj2 (dfFun_range (qc 1 96) [Z2Qc 96; 0%Qc; 0%Qc])).
  - intros di [<-|[<-|[<-|[]]]]; apply Qc_leb_le; vm_compute; reflexivity.
  - apply Qc_leb_le. vm_compute. reflexivity.
Defined.

(* ================================================================== *)
(** ** More on the penalty of a factor and the assembler               *)
(* ================================================================== *)

Lemma py_last_app {A} (l : list A) (x : A) : py_last (l ++ [x]) = Ok x.
Proof. unfold py_last. now rewrite rev_app_distr. Qed.

Lemma py_last_ok {A} (l : list A) (x : A) :
  py_last l = Ok x -> exists pre, l = pre ++ [x].
Proof.
  unfold py_last. destruct (rev l) as [|y ys] eqn:E; [discriminate|].
  intro H. injection H as ->. exists (rev ys).
  rewrite <- (rev_involutive l), E. reflexivity.
Qed.

(** X13.  A factor yields penalty matrices exactly when its name
    contains "spline", the last pass of its stateful transforms holds a
    single object, and that object is a [Spline]; the matrices are those
    of that outermost object.  A spline wrapped in another transform,
    such as center(spline(x)), yields none. *)
Theorem penalty_only_from_outermost_spline (factor_info : FactorInfo)
  (Ps : list matrix) :
  _get_penalty_matrix_from_factor_info factor_info = Ok (Some Ps) <->
  contains "spline" (factor_name factor_info) = true /\
  exists earlier name,
    pass_bins factor_info = earlier ++ [[name]] /\
    dict_get (transforms factor_info) name = Some (SplineObject Ps).
Proof.
  unfold _get_penalty_matrix_from_factor_info. split.
  - destruct (contains "spline" (factor_name factor_info)); [|discriminate].
    simpl negb. cbv iota.
    destruct (py_last (pass_bins factor_info)) as [outer|e] eqn:El;
      [|discriminate].
    destruct outer as [|name rest]; [discriminate|].
    unfold dict_item.
    destruct (dict_get (transforms factor_info) name) as [obj|] eqn:Eo;
      [|discriminate].
    destruct rest as [|n2 rest]; simpl; [|discriminate].
    destruct obj as [Ps'|]; [|discriminate].
    intro H. injection H as <-. split; [reflexivity|].
    destruct (py_last_ok _ El) as [pre Hpre]. eauto.
  - intros (Hc & earlier & name & Hp & Ho).
    rewrite Hc, Hp, py_last_app. simpl. unfold dict_item. now rewrite Ho.
Qed.

(** A term none of whose factor names contains "spline" leaves the
    matrix and the counter of splines as they were. *)
Lemma assemble_term_plain (np : Numpy) (dm : DesignMatrix) (dfs : dfs_arg)
  (st : assembler_state) (t : Term) (s : wstate) :
  (forall fi, In fi (term_factors t) ->
              contains "spline" (factor_name fi) = false) ->
  exists st',
    assemble_term np dm dfs st t s = (Ok st', s) /\
    big_P st' = big_P st /\ spline_counter st' = spline_counter st.
Proof.
  intro H. unfold assemble_term.
  destruct (term_factors t) as [|fi [|fi' rest]].
  - exists st. auto.
  - unfold _get_penalty_matrix_from_factor_info.
    rewrite (H fi (or_introl eq_refl)). simpl.
    eexists. split; [reflexivity|]. auto.
  - exists st. auto.
Qed.

Lemma foldM_plain (np : Numpy) (dm : DesignMatrix) (dfs : dfs_arg)
  (s : wstate) :
  forall (terms : list Term) (st : assembler_state),
    (forall t fi, In t terms -> In fi (term_factors t) ->
                  contains "spline" (factor_name fi) = false) ->
    exists st',
      foldM (assemble_term np dm dfs) terms st s = (Ok st', s) /\
      big_P st' = big_P st /\ spline_counter st' = spline_counter st.
Proof.
  induction terms as [|t terms IH]; intros st H.
  - exists st. auto.
  - destruct (@assemble_term_plain np dm dfs st t s
                (fun fi => H t fi (or_introl eq_refl)))
      as (st1 & E1 & HP1 & Hc1).
    destruct (IH st1 (fun t' fi Ht => H t' fi (or_intror Ht)))
      as (st' & E' & HP' & Hc').
    exists st'. simpl foldM. unfold bind. rewrite E1.
    split; [exact E'|]. split; congruence.
Qed.

(** X14.  For a design none of whose factor names contains "spline" the
    assembler returns the zero matrix of the column count, whatever the
    degrees of freedom and whatever the libraries do: the solver is not
    called and no request is read. *)
Theorem no_spline_factor_zero_penalty (np : Numpy) (dm : DesignMatrix)
  (dfs : dfs_arg) (s : wstate) :
  (forall t fi, In t (dm_terms dm) -> In fi (term_factors t) ->
                contains "spline" (factor_name fi) = false) ->
  _get_P_from_design_matrix np dm dfs s
  = (Ok (np_zeros (shape1 dm) (shape1 dm)), s).
Proof.
  intro H. unfold _get_P_from_design_matrix, bind, ret.
  destruct (@foldM_plain np dm dfs s (dm_terms dm)
              (mk_state (np_zeros (shape1 dm) (shape1 dm)) 0 0) H)
    as (st' & E & HP & _).
  rewrite E. now rewrite HP.
Qed.

Lemma no_spline_factor_zero_penalty_witness :
  _get_P_from_design_matrix Worked.numpy Cases.linear_design (DfList [])
    Worked.s0
  = (Ok (np_zeros 2 2), Worked.s0).
Proof.
  apply (@no_spline_factor_zero_penalty Worked.numpy Cases.linear_design
           (DfList []) Worked.s0).
  intros t fi [<-|[<-|[]]] Hfi; simpl in Hfi; [destruct Hfi|].
  destruct Hfi as [<-|[]]. reflexivity.
Defined.

Lemma penalty_only_from_outermost_spline_witness :
  _get_penalty_matrix_from_factor_info Worked.spline_factor
  = Ok (Some [Worked.P0]).
Proof.
  apply (proj2 (penalty_only_from_outermost_spline Worked.spline_factor
                  [Worked.P0])).
  split; [reflexivity|].
  exists [], "_patsy_stobj0__spline__". split; reflexivity.
Defined.

Example centered_spline_has_no_penalty :
  _get_penalty_matrix_from_factor_info Cases.centered_spline_factor = Ok None.
Proof. reflexivity. Qed.

Lemma foldM_app {A B} (f : A -> B -> M A) (l1 l2 : list B) :
  forall (a a1 : A) (s s1 : wstate),
    foldM f l1 a s = (Ok a1, s1) ->
    foldM f (l1 ++ l2) a s = foldM f l2 a1 s1.
Proof.
  induction l1 as [|x l1 IH]; intros a a1 s s1 H; simpl in *.
  - unfold ret in H. now injection H as <- <-.
  - unfold bind in *. destruct (f a x s) as [[a'|e] s2] eqn:E; [|discriminate].
    now apply IH.
Qed.

(** X15.  A term with a single plain factor whose name contains
    "spline" (a feature called spline_age, say) has no stateful
    transform to look at: when the terms before it carry no such name,
    the assembler stops with an index error, before any solver call for
    that term. *)
Theorem spline_named_feature_raises (np : Numpy) (dm : DesignMatrix)
  (dfs : dfs_arg) (s : wstate) (before after : list Term) (t : Term)
  (factor_info : FactorInfo) :
  dm_terms dm = before ++ t :: after ->
  (forall t' fi, In t' before -> In fi (term_factors t') ->
                 contains "spline" (factor_name fi) = false) ->
  term_factors t = [factor_info] ->
  contains "spline" (factor_name factor_info) = true ->
  pass_bins factor_info = [] ->
  _get_P_from_design_matrix np dm dfs s = (Raise IndexError, s).
Proof.
  intros Hterms Hbefore Hfac Hname Hbins.
  unfold _get_P_from_design_matrix, bind. rewrite Hterms.
  destruct (@foldM_plain np dm dfs s before
              (mk_state (np_zeros (shape1 dm) (shape1 dm)) 0 0) Hbefore)
    as (st1 & E1 & _).
  rewrite (foldM_app _ _ (t :: after) _ _ E1).
  simpl foldM. unfold bind, assemble_term. rewrite Hfac.
  unfold _get_penalty_matrix_from_factor_info. rewrite Hname, Hbins.
  reflexivity.
Qed.

Lemma spline_named_feature_raises_witness :
  _get_P_from_design_matrix Worked.numpy Cases.spline_age_design
    (DfScalar (Z2Qc 4)) Worked.s0
  = (Raise IndexError, Worked.s0).
Proof.
  apply (@spline_named_feature_raises Worked.numpy Cases.spline_age_design
           (DfScalar (Z2Qc 4)) Worked.s0 [Worked.intercept_term] []
           (mk_term "spline_age" [Cases.spline_age_factor] (1, 2))
           Cases.spline_age_factor).
  - reflexivity.
  - intros t' fi [<-|[]] Hfi. destruct Hfi.
  - reflexivity.
  - reflexivity.
  - reflexivity.
Defined.

(** The requests read by the loop: one per penalised term, at
    consecutive positions. *)
Lemma foldM_requests (np : Numpy) (dm : DesignMatrix) (dfs : dfs_arg)
  (s : wstate) :
  forall (terms : list Term) (st st' : assembler_state) (s' : wstate),
    foldM (assemble_term np dm dfs) terms st s = (Ok st', s') ->
    s' = s /\
    spline_counter st'
    = spline_counter st + List.length (penalised_terms terms) /\
    forall k, k < List.length (penalised_terms terms) ->
              exists df, df_request dfs (spline_counter st + k) = Ok df.
Proof.
  induction terms as [|t terms IH]; intros st st' s' Hrun.
  - simpl in Hrun. unfold ret in Hrun. injection Hrun as <- <-.
    simpl. split; [reflexivity|]. split; [lia|]. intros k Hk. lia.
  - simpl foldM in Hrun. unfold bind in Hrun.
    destruct (assemble_term np dm dfs st t s) as [[st1|e] s1] eqn:Hstep;
      [|discriminate].
    destruct (assemble_term_spec _ _ _ _ _ _ Hstep) as [-> Hspec].
    destruct (IH st1 st' s' Hrun) as (-> & Hcount & Hreq).
    split; [reflexivity|]. simpl penalised_terms.
    destruct (roughness_of_term t) as [P0|].
    + destruct Hspec as (df & df' & lam & Hdf & _ & _ & Hc1).
      simpl List.length. split; [lia|].
      intros [|k] Hk.
      * rewrite Nat.add_0_r. eauto.
      * destruct (Hreq k ltac:(lia)) as [df2 H2]. exists df2.
        rewrite <- H2. f_equal. lia.
    + destruct Hspec as [_ Hc1]. split; [lia|].
      intros k Hk. destruct (Hreq k Hk) as [df2 H2]. exists df2.
      rewrite <- H2. f_equal. lia.
Qed.

(** X16.  When the degrees of freedom are a list and the assembler
    returns a matrix, the list has an entry for every penalised term: a
    list shorter than the number of penalised terms never gives a penalty
    matrix. *)
Theorem df_list_covers_penalised_terms (np : Numpy) (dm : DesignMatrix)
  (l : list scalar) (s s' : wstate) (bigP : matrix) :
  _get_P_from_design_matrix np dm (DfList l) s = (Ok bigP, s') ->
  List.length (penalised_terms (dm_terms dm)) <= List.length l.
Proof.
  intro Hrun. destruct (get_P_unfold _ _ _ _ Hrun) as (st' & Hfold & _).
  destruct (@foldM_requests np dm (DfList l) s _ _ _ _ Hfold)
    as (_ & _ & Hreq).
  destruct (List.length (penalised_terms (dm_terms dm))) as [|n] eqn:E;
    [lia|].
  destruct (Hreq n ltac:(lia)) as [df Hdf].
  simpl in Hdf. unfold py_index in Hdf.
  destruct (nth_error l n) eqn:En; [|discriminate].
  assert (n < List.length l) by (apply nth_error_Some; congruence). lia.
Qed.

Lemma df_list_covers_penalised_terms_witness :
  List.length (penalised_terms (dm_terms Worked.full_design))
  <= List.length [qc 5 2].
Proof.
  eapply (@df_list_covers_penalised_terms Worked.numpy Worked.full_design
            [qc 5 2] Worked.s0 Worked.s0).
  vm_compute. reflexivity.
Defined.

Example empty_df_list_raises :
  _get_P_from_design_matrix Worked.numpy Worked.full_design (DfList [])
    Worked.s0
  = (Raise IndexError, Worked.s0).
Proof. vm_compute. reflexivity. Qed.

(* ================================================================== *)
(** ** Symmetry of the penalty matrix                                  *)
(* ================================================================== *)

Lemma block_or_frame (l : list (Term * matrix)) (i j : nat) :
  (exists t P0, In (t, P0) l /\
                in_slice (term_slice t) i /\ in_slice (term_slice t) j) \/
  (forall t P0, In (t, P0) l ->
                ~ (in_slice (term_slice t) i /\ in_slice (term_slice t) j)).
Proof.
  induction l as [|[t P0] l IH].
  - right. intros t P0 [].
  - destruct IH as [(t' & P' & Hin & H)|IH].
    + left. exists t', P'. split; [right; exact Hin | exact H].
    + assert (D : (in_slice (term_slice t) i /\ in_slice (term_slice t) j) \/
                  ~ (in_slice (term_slice t) i /\ in_slice (term_slice t) j))
        by (unfold in_slice; lia).
      destruct D as [D|D].
      * left. exists t, P0. split; [left; reflexivity | exact D].
      * right. intros t' P' [E|Hin]; [injection E as <- <-; exact D|].
        exact (IH t' P' Hin).
Qed.

(** X17.  With patsy's slice invariants, when the roughness matrix of
    every penalised term is symmetric, the assembled penalty matrix is
    symmetric. *)
Theorem penalty_matrix_symmetric (np : Numpy) (dm : DesignMatrix)
  (dfs : dfs_arg) (s s' : wstate) (bigP : matrix) :
  slices_ok (shape1 dm) (penalised_terms (dm_terms dm)) ->
  (forall t P0, In (t, P0) (penalised_terms (dm_terms dm)) -> symmetric P0) ->
  _get_P_from_design_matrix np dm dfs s = (Ok bigP, s') ->
  symmetric bigP.
Proof.
  intros Hok Hsym Hrun i j.
  destruct (get_P_unfold _ _ _ _ Hrun) as (st' & Hfold & <-).
  destruct (@foldM_assemble np dm dfs (shape1 dm) s _ _ _ _ Hfold
              (is_shape_tabulate _ _ _) Hok)
    as (_ & _ & _ & Hblocks & Hframe).
  destruct (block_or_frame (penalised_terms (dm_terms dm)) i j)
    as [(t & P0 & Hin & Hi & Hj)|Hout].
  - destruct (In_nth_error _ _ Hin) as [k Hk].
    destruct (Hblocks k t P0 Hk) as (df & df' & lam & _ & _ & Hent).
    rewrite (Hent i j Hi Hj), (Hent j i Hj Hi). f_equal.
    apply (Hsym t P0 Hin).
  - rewrite (Hframe i j Hout), (Hframe j i).
    + cbn [big_P]. now rewrite !entry_zeros.
    + intros t P0 Hin [Hj Hi]. exact (Hout t P0 Hin (conj Hi Hj)).
Qed.

Lemma worked_P0_symmetric : symmetric Worked.P0.
Proof.
  intros i j. unfold entry.
  destruct i as [|[|[|[|i]]]]; destruct j as [|[|[|[|j]]]]; reflexivity.
Qed.

Lemma penalty_matrix_symmetric_witness :
  exists bigP,
    _get_P_from_design_matrix Worked.numpy Worked.full_design
      (DfList [qc 5 2]) Worked.s0 = (Ok bigP, Worked.s0) /\
    symmetric bigP.
Proof.
  eexists. split; [vm_compute; reflexivity|].
  eapply (@penalty_matrix_symmetric Worked.numpy Worked.full_design
            (DfList [qc 5 2]) Worked.s0 Worked.s0).
  - exact worked_slices_ok.
  - intros t P0 [E|[]]. injection E as <- <-. exact worked_P0_symmetric.
  - vm_compute. reflexivity.
Defined.

(* ================================================================== *)
(** ** The features of a term and the classifier                       *)
(* ================================================================== *)

Lemma term_features_loop (co_names : string -> result (list string))
  (feature_names : list string) :
  forall (factors : list FactorInfo) (acc l : list string),
    NoDup acc ->
    _get_all_input_features_for_term_loop co_names factors feature_names acc
    = Ok l ->
    NoDup l /\
    (forall fi, In fi factors ->
                exists names, co_names (factor_name fi) = Ok names) /\
    forall x, In x l <->
      In x acc \/
      (In x feature_names /\
       exists fi names, In fi factors /\
                        co_names (factor_name fi) = Ok names /\ In x names).
Proof.
  induction factors as [|fi factors IH]; intros acc l Hnd Hrun.
  - simpl in Hrun. injection Hrun as <-. split; [exact Hnd|].
    split; [intros fi []|].
    intro x. split; [auto|]. intros [H|(_ & fi & _ & [] & _)]. exact H.
  - simpl in Hrun. unfold _get_input_features_for_functional_expression in Hrun.
    destruct (co_names (factor_name fi)) as [names|e] eqn:E; [|discriminate].
    apply IH in Hrun; [|apply NoDup_nodup].
    destruct Hrun as (Hl & Hall & Hin). split; [exact Hl|]. split.
    + intros fi' [<-|H]; [eauto | exact (Hall fi' H)].
    + intro x. rewrite Hin. unfold set_of.
      rewrite nodup_In, in_app_iff, nodup_In, filter_In, nodup_In.
      split.
      * intros [[H|[Hn Hm]]|(Hf & fi' & names' & H1 & H2 & H3)].
        -- left. exact H.
        -- right. apply mem_In in Hm. apply nodup_In in Hm.
           split; [exact Hm|]. exists fi, names.
           split; [left; reflexivity | split; assumption].
        -- right. split; [exact Hf|]. exists fi', names'.
           split; [right; exact H1 | split; assumption].
      * intros [H|(Hf & fi' & names' & [<-|H1] & H2 & H3)].
        -- left. left. exact H.
        -- left. right. rewrite E in H2. injection H2 as <-.
           split; [exact H3|]. apply In_mem. apply nodup_In. exact Hf.
        -- right. split; [exact Hf|]. exists fi', names'.
           split; [exact H1 | split; assumption].
Qed.

(** X18.  The features found for a term: a duplicate-free list holding
    exactly the data columns that the parser names in one of the
    factors of the term; a result exists only when the parser accepts
    every factor. *)
Theorem term_features (co_names : string -> result (list string))
  (term : Term) (feature_names l : list string) :
  _get_all_input_features_for_term co_names term feature_names = Ok l ->
  NoDup l /\
  (forall fi, In fi (term_factors term) ->
              exists names, co_names (factor_name fi) = Ok names) /\
  forall x, In x l <->
    In x feature_names /\
    exists fi names, In fi (term_factors term) /\
                     co_names (factor_name fi) = Ok names /\ In x names.
Proof.
  intro Hrun. unfold _get_all_input_features_for_term in Hrun.
  destruct (@term_features_loop co_names feature_names _ _ _ (NoDup_nil _) Hrun)
    as (Hnd & Hall & Hin).
  split; [exact Hnd|]. split; [exact Hall|].
  intro x. rewrite Hin. split; [intros [[]|H]; exact H | auto].
Qed.

Lemma term_features_witness :
  NoDup ["x1"; "x2"] /\
  forall x, In x ["x1"; "x2"] <->
    In x (df_columns Worked.data) /\
    exists fi names, In fi (term_factors (Worked.interaction_term 4 7)) /\
                     co_names Worked.host (factor_name fi) = Ok names /\
                     In x names.
Proof.
  destruct (@term_features (co_names Worked.host) (Worked.interaction_term 4 7)
              (df_columns Worked.data) ["x1"; "x2"])
    as (H1 & _ & H2); [vm_compute; reflexivity|].
  split; [exact H1 | exact H2].
Defined.

Lemma info_loop_spec (co_names : string -> result (list string))
  (feature_names : list string) :
  forall (terms : list Term) (acc r : term_info * term_info),
    _get_info_loop co_names terms feature_names acc = Ok r ->
    exists fs fn,
      Forall2 (fun t f => _get_all_input_features_for_term co_names t
                            feature_names = Ok f)
              (filter is_smooth terms) fs /\
      Forall2 (fun t f => _get_all_input_features_for_term co_names t
                            feature_names = Ok f)
              (filter (fun t => negb (is_smooth t)) terms) fn /\
      fst r = mk_info
                (list_of_slices (fst acc)
                 ++ map term_slice (filter is_smooth terms))
                (list_of_input_features (fst acc) ++ fs)
                (list_of_term_names (fst acc)
                 ++ map term_name (filter is_smooth terms)) /\
      snd r = mk_info
                (list_of_slices (snd acc)
                 ++ map term_slice
                      (filter (fun t => negb (is_smooth t)) terms))
                (list_of_input_features (snd acc) ++ fn)
                (list_of_term_names (snd acc)
                 ++ map term_name
                      (filter (fun t => negb (is_smooth t)) terms)).
Proof.
  induction terms as [|t terms IH]; intros acc r Hrun.
  - simpl in Hrun. injection Hrun as <-. exists [], []. simpl.
    rewrite !app_nil_r. destruct acc as [[a b c] [a' b' c']]. simpl. auto.
  - cbn [_get_info_loop] in Hrun.
    destruct (_get_all_input_features_for_term co_names t feature_names)
      as [f|e] eqn:Ef; [|discriminate].
    cbn [filter].
    assert (Hs : is_smooth t = contains "spline" (term_name t))
      by reflexivity.
    destruct (contains "spline" (term_name t)) eqn:Es; rewrite Hs;
      apply IH in Hrun; destruct Hrun as (fs & fn & H1 & H2 & H3 & H4);
      cbn [negb].
    + exists (f :: fs), fn. split; [constructor; assumption|].
      split; [exact H2|]. rewrite H3, H4. cbn [fst snd info_append map
        list_of_slices list_of_input_features list_of_term_names].
      rewrite <- !app_assoc. auto.
    + exists fs, (f :: fn). split; [exact H1|].
      split; [constructor; assumption|]. rewrite H3, H4.
      cbn [fst snd info_append map
        list_of_slices list_of_input_features list_of_term_names].
      rewrite <- !app_assoc. auto.
Qed.

(** X19.  The classifier splits the terms of the design by whether the
    term name contains "spline", keeping their order: the slices and
    names of the spline information are those of the terms with such a
    name, its feature lists are the features of those terms, position by
    position; the rest is in the non-spline information.  The three
    lists of each have one entry per term. *)
Theorem classifier_partition (co_names : string -> result (list string))
  (dm : DesignMatrix) (feature_names : list string)
  (spline_info non_spline_info : term_info) :
  _get_info_from_design_matrix co_names dm feature_names
  = Ok (spline_info, non_spline_info) ->
  let smooth := filter is_smooth (dm_terms dm) in
  let plain := filter (fun t => negb (is_smooth t)) (dm_terms dm) in
  list_of_slices spline_info = map term_slice smooth /\
  list_of_term_names spline_info = map term_name smooth /\
  Forall2 (fun t f => _get_all_input_features_for_term co_names t
                        feature_names = Ok f)
          smooth (list_of_input_features spline_info) /\
  list_of_slices non_spline_info = map term_slice plain /\
  list_of_term_names non_spline_info = map term_name plain /\
  Forall2 (fun t f => _get_all_input_features_for_term co_names t
                        feature_names = Ok f)
          plain (list_of_input_features non_spline_info) /\
  List.length (list_of_slices spline_info)
  = List.length (list_of_input_features spline_info) /\
  List.length (list_of_slices non_spline_info)
  = List.length (list_of_input_features non_spline_info).
Proof.
  intros Hrun smooth plain. unfold _get_info_from_design_matrix in Hrun.
  destruct (@info_loop_spec co_names feature_names _ _ _ Hrun)
    as (fs & fn & H1 & H2 & H3 & H4).
  simpl in H3, H4. subst spline_info non_spline_info. simpl.
  fold smooth in H1. fold plain in H2.
  repeat (split; [first [reflexivity | assumption]|]).
  split.
  - rewrite length_map. exact (Forall2_length H1).
  - rewrite length_map. exact (Forall2_length H2).
Qed.

Lemma classifier_partition_witness :
  exists sp nsp,
    _get_info_from_design_matrix (co_names Worked.host) Worked.full_design
      (df_columns Worked.data) = Ok (sp, nsp) /\
    list_of_slices sp = [(1, 4); (4, 7)] /\
    list_of_slices nsp = [(0, 1)].
Proof.
  eexists. eexists. split; [vm_compute; reflexivity|].
  match goal with
  | |- list_of_slices ?S = _ /\ list_of_slices ?N = _ =>
      destruct (@classifier_partition (co_names Worked.host)
                  Worked.full_design (df_columns Worked.data) S N)
        as (H1 & _ & _ & H2 & _); [vm_compute; reflexivity|]
  end.
  split; [exact H1 | exact H2].
Defined.

(* ================================================================== *)
(** ** More on the orthogonaliser                                      *)
(* ================================================================== *)




(** X21.  When no non-spline term has all its features among those of
    a spline term, the orthogonaliser hands the frame back unchanged and
    never calls the QR routine: this holds for every behaviour of the
    libraries. *)
Theorem orthogonalize_without_constraints (np : Numpy) (values : matrix)
  (spline_info non_spline_info : term_info) :
  (forall sfeat nfeat,
      In sfeat (list_of_input_features spline_info) ->
      In nfeat (list_of_input_features non_spline_info) ->
      issubset (set_of nfeat) (set_of sfeat) = false) ->
  _orthogonalize_spline_wrt_non_splines np values spline_info non_spline_info
  = Ok values.
Proof.
  intro Hnone. unfold _orthogonalize_spline_wrt_non_splines.
  assert (H : forall sps : list ((nat * nat) * list string),
             (forall sp, In sp sps ->
                         In (snd sp) (list_of_input_features spline_info)) ->
             fold_result (orthogonalize_one np non_spline_info) sps values
             = Ok values).
  { induction sps as [|[ssl sfeat] sps IH]; intro Hin; [reflexivity|].
    cbn [fold_result]. unfold orthogonalize_one, gather_constraints.
    rewrite filter_none.
    - simpl map. apply IH. intros sp Hsp. apply Hin. now right.
    - intros [nsl nfeat] Hp. simpl. apply Hnone.
      + exact (Hin (ssl, sfeat) (or_introl eq_refl)).
      + eapply in_combine_r. exact Hp. }
  apply H. intros [ssl sfeat] Hsp. simpl. eapply in_combine_r. exact Hsp.
Qed.

Lemma orthogonalize_without_constraints_witness :
  _orthogonalize_spline_wrt_non_splines Cases.numpy_without_qr Worked.frame4
    Worked.spline_info4 Cases.x2_only_info
  = Ok Worked.frame4.
Proof.
  apply (@orthogonalize_without_constraints Cases.numpy_without_qr
           Worked.frame4 Worked.spline_info4 Cases.x2_only_info).
  intros sfeat nfeat [<-|[]] [<-|[]]. reflexivity.
Defined.

(* ================================================================== *)
(** ** The loop of [parse_formulas]                                    *)
(* ================================================================== *)

Lemma get_P_ok_state (np : Numpy) (dm : DesignMatrix) (dfs : dfs_arg)
  (s s' : wstate) (bigP : matrix) :
  _get_P_from_design_matrix np dm dfs s = (Ok bigP, s') -> s' = s.
Proof.
  intro Hrun. destruct (get_P_unfold _ _ _ _ Hrun) as (st' & Hfold & _).
  now destruct (@foldM_requests np dm dfs s _ _ _ _ Hfold) as (-> & _).
Qed.

(** One pass of the loop: it returns exactly when the parameter has
    degrees of freedom and a formula and every stage succeeds, and then
    stores the three entries under the parameter. *)
Lemma parse_param_iff (np : Numpy) (h : Host) (formulas : dict string)
  (data : DataFrame) (deep_models_dict : dict deep_model)
  (degrees_of_freedom : dict dfs_arg) (acc out : outputs) (param : string)
  (s s' : wstate) :
  parse_param np h formulas data deep_models_dict degrees_of_freedom acc
    param s = (Ok out, s')
  <->
  s' = s /\
  exists dfs formula c md info,
    dict_get degrees_of_freedom param = Some dfs /\
    dict_get formulas param = Some formula /\
    param_entries np h formula dfs data deep_models_dict s c md info /\
    out = mk_outputs (dict_set (parsed_formula_contents acc) param c)
                     (dict_set (meta_datadict acc) param md)
                     (dict_set (dm_info_dict acc) param info).
Proof.
  unfold parse_param, param_entries, dict_item, bind, lift, ret. split.
  - destruct (dict_get degrees_of_freedom param) as [dfs|]; [|discriminate].
    destruct (dict_get formulas param) as [formula|]; [|discriminate].
    destruct (_split_formula formula (dict_keys deep_models_dict))
      as [sp ut] eqn:Esplit.
    destruct (dmatrix h (null_model_if_empty sp) data) as [sm|e] eqn:Edm;
      [|discriminate].
    destruct (_get_info_from_design_matrix (co_names h) sm (df_columns data))
      as [infos|e] eqn:Einfo; [|discriminate].
    destruct (_get_P_from_design_matrix np sm dfs s) as [[bigP|e] s1] eqn:EP;
      [|discriminate].
    pose proof (get_P_ok_state _ _ _ _ EP) as ->.
    destruct (_orthogonalize_spline_wrt_non_splines np
                (df_values (dm_frame sm)) (fst infos) (snd infos))
      as [values|e] eqn:Eorth; [|discriminate].
    destruct (fold_result _ ut _) as [u|e] eqn:Eu; [|discriminate].
    intro H. injection H as <- <-. split; [reflexivity|].
    exists dfs, formula,
      (mk_content (shape1 sm) bigP (u_models u) (u_shapes u)),
      (u_meta u), (fst infos).
    split; [reflexivity|]. split; [reflexivity|]. split; [|reflexivity].
    exists sm, infos, values, u. rewrite Esplit. cbn [fst snd P].
    repeat (split; [first [reflexivity | assumption]|]). reflexivity.
  - intros (-> & dfs & formula & c & md & info & Hdf & Hf
            & (sm & infos & values & u & Edm & Einfo & EP & Eorth & Eu
               & Hc & -> & ->) & ->).
    rewrite Hdf, Hf.
    destruct (_split_formula formula (dict_keys deep_models_dict))
      as [sp ut] eqn:Esplit.
    cbn [fst snd] in Edm, Eu. rewrite Edm, Einfo, EP, Eorth, Eu.
    rewrite <- Hc. reflexivity.
Qed.

(** The loop over duplicate-free keys: every key gets the entries of its
    own pass; the other keys keep what they had. *)
Lemma parse_loop (np : Numpy) (h : Host) (formulas : dict string)
  (data : DataFrame) (deep_models_dict : dict deep_model)
  (degrees_of_freedom : dict dfs_arg) (s : wstate) :
  forall (keys : list string) (acc out : outputs) (s' : wstate),
    NoDup keys ->
    foldM (parse_param np h formulas data deep_models_dict degrees_of_freedom)
      keys acc s = (Ok out, s') ->
    s' = s /\
    (forall p, In p keys ->
       exists dfs formula c md info,
         dict_get degrees_of_freedom p = Some dfs /\
         dict_get formulas p = Some formula /\
         param_entries np h formula dfs data deep_models_dict s c md info /\
         dict_get (parsed_formula_contents out) p = Some c /\
         dict_get (meta_datadict out) p = Some md /\
         dict_get (dm_info_dict out) p = Some info) /\
    (forall p, ~ In p keys ->
       dict_get (parsed_formula_contents out) p
       = dict_get (parsed_formula_contents acc) p /\
       dict_get (meta_datadict out) p = dict_get (meta_datadict acc) p /\
       dict_get (dm_info_dict out) p = dict_get (dm_info_dict acc) p) /\
    dict_keys (parsed_formula_contents out)
    = fold_left (fun ks k => if mem k ks then ks else ks ++ [k]) keys
        (dict_keys (parsed_formula_contents acc)) /\
    dict_keys (meta_datadict out)
    = fold_left (fun ks k => if mem k ks then ks else ks ++ [k]) keys
        (dict_keys (meta_datadict acc)) /\
    dict_keys (dm_info_dict out)
    = fold_left (fun ks k => if mem k ks then ks else ks ++ [k]) keys
        (dict_keys (dm_info_dict acc)).
Proof.
  induction keys as [|k keys IH]; intros acc out s' Hnd Hrun.
  - simpl in Hrun. unfold ret in Hrun. injection Hrun as <- <-.
    split; [reflexivity|]. split; [intros p []|]. simpl. auto.
  - simpl foldM in Hrun. unfold bind in Hrun.
    destruct (parse_param np h formulas data deep_models_dict
                degrees_of_freedom acc k s) as [[acc1|e] s1] eqn:Estep;
      [|discriminate].
    apply parse_param_iff in Estep.
    destruct Estep as (-> & dfs & formula & c & md & info & Hdf & Hf & He
                       & ->).
    inversion Hnd as [|? ? Hk Hnd']; subst.
    destruct (IH _ _ _ Hnd' Hrun) as (-> & Hin & Hout & K1 & K2 & K3).
    split; [reflexivity|]. split; [|split].
    + intros p [<-|Hp]; [|exact (Hin p Hp)].
      destruct (Hout k Hk) as (E1 & E2 & E3). cbn [parsed_formula_contents
        meta_datadict dm_info_dict] in E1, E2, E3.
      rewrite dict_get_set_same in E1. rewrite dict_get_set_same in E2.
      rewrite dict_get_set_same in E3.
      exists dfs, formula, c, md, info. auto 10.
    + intros p Hp. destruct (Hout p) as (E1 & E2 & E3).
      { intro H. apply Hp. now right. }
      cbn [parsed_formula_contents meta_datadict dm_info_dict] in E1, E2, E3.
      assert (Hne : p <> k) by (intros ->; apply Hp; now left).
      rewrite dict_get_set_other in E1 by exact Hne.
      rewrite dict_get_set_other in E2 by exact Hne.
      rewrite dict_get_set_other in E3 by exact Hne. auto.
    + cbn [parsed_formula_contents meta_datadict dm_info_dict] in K1, K2, K3.
      rewrite dict_keys_set in K1. rewrite dict_keys_set in K2.
      rewrite dict_keys_set in K3. simpl fold_left. auto.
Qed.

Lemma fold_keys_fresh (keys : list string) :
  forall pre, NoDup (pre ++ keys) ->
    fold_left (fun ks k => if mem k ks then ks else ks ++ [k]) keys pre
    = pre ++ keys.
Proof.
  induction keys as [|k keys IH]; intros pre Hnd; simpl.
  - now rewrite app_nil_r.
  - destruct (mem k pre) eqn:E.
    + apply mem_In in E. apply NoDup_remove_2 in Hnd.
      exfalso. apply Hnd. apply in_or_app. now left.
    + rewrite IH; rewrite <- app_assoc; [reflexivity | exact Hnd].
Qed.

(** X22.  The parameters are compiled independently of one another:
    when [parse_formulas] returns, the three entries stored under a
    parameter of the family are those that it returns for the family
    with that parameter alone (same formulas, data, networks and degrees
    of freedom), and the warnings state is left as it was. *)
Theorem parameters_compiled_independently (np : Numpy) (h : Host)
  (params : list string) (formulas : dict string) (data : DataFrame)
  (deep_models_dict : dict deep_model) (degrees_of_freedom : dict dfs_arg)
  (s s' : wstate) (out : outputs) (p : string) :
  parse_formulas np h params formulas data deep_models_dict
    degrees_of_freedom s = (Ok out, s') ->
  In p params ->
  s' = s /\
  exists c md info,
    dict_get (parsed_formula_contents out) p = Some c /\
    dict_get (meta_datadict out) p = Some md /\
    dict_get (dm_info_dict out) p = Some info /\
    parse_formulas np h [p] formulas data deep_models_dict
      degrees_of_freedom s
    = (Ok (mk_outputs [(p, c)] [(p, md)] [(p, info)]), s).
Proof.
  intros Hrun Hp. unfold parse_formulas in Hrun.
  destruct (checkups_keys_nodup params formulas) as [Hnd Hkeys].
  destruct (@parse_loop np h _ data deep_models_dict degrees_of_freedom s
              _ _ _ _ Hnd Hrun) as (-> & Hin & _).
  split; [reflexivity|].
  destruct (Hin p (proj2 (Hkeys p) Hp))
    as (dfs & formula & c & md & info & Hdf & Hf & He & E1 & E2 & E3).
  exists c, md, info. repeat (split; [assumption|]).
  unfold parse_formulas.
  assert (Hone : _checkups [p] formulas = [(p, formula)]).
  { unfold _checkups in *. rewrite checkups_loop, (In_mem _ _ Hp) in Hf.
    simpl in Hf. injection Hf as <-. unfold checked_formula. simpl.
    now destruct (dict_get formulas p). }
  rewrite Hone. simpl dict_keys. simpl foldM. unfold bind.
  assert (Hstep : parse_param np h [(p, formula)] data deep_models_dict
                    degrees_of_freedom (mk_outputs [] [] []) p s
                  = (Ok (mk_outputs [(p, c)] [(p, md)] [(p, info)]), s)).
  { apply parse_param_iff. split; [reflexivity|].
    exists dfs, formula, c, md, info. split; [exact Hdf|].
    split; [simpl; now rewrite String.eqb_refl|]. split; [exact He|].
    reflexivity. }
  rewrite Hstep. reflexivity.
Qed.

Lemma parameters_compiled_independently_witness :
  exists out c md info,
    parse_formulas Worked.numpy Worked.host ["loc"; "scale"]
      [("loc", "~1+d1(x2,x1,x3)")] Worked.data [("d1", Worked.d1)]
      [("loc", DfScalar (Z2Qc 4)); ("scale", DfScalar (Z2Qc 4))] Worked.s0
    = (Ok out, Worked.s0) /\
    dict_get (parsed_formula_contents out) "loc" = Some c /\
    parse_formulas Worked.numpy Worked.host ["loc"]
      [("loc", "~1+d1(x2,x1,x3)")] Worked.data [("d1", Worked.d1)]
      [("loc", DfScalar (Z2Qc 4)); ("scale", DfScalar (Z2Qc 4))] Worked.s0
    = (Ok (mk_outputs [("loc", c)] [("loc", md)] [("loc", info)]),
       Worked.s0).
Proof.
  eexists.
  match goal with
  | |- exists c md info, ?R = (Ok ?O, _) /\ _ =>
      assert (Hrun : R = (Ok O, Worked.s0)) by (vm_compute; reflexivity)
  end.
  destruct (@parameters_compiled_independently _ _ _ _ _ _ _ _ _ _ "loc" Hrun)
    as (_ & c & md & info & H1 & _ & _ & H4); [simpl; auto|].
  exists c, md, info. split; [exact Hrun|]. split; [exact H1 | exact H4].
Defined.

(** X23.  The three dictionaries that [parse_formulas] returns have
    the same keys in the same order: the parameters of the family, each
    once, whether or not the caller gave a formula for them. *)
Theorem outputs_keyed_by_parameters (np : Numpy) (h : Host)
  (params : list string) (formulas : dict string) (data : DataFrame)
  (deep_models_dict : dict deep_model) (degrees_of_freedom : dict dfs_arg)
  (s s' : wstate) (out : outputs) :
  parse_formulas np h params formulas data deep_models_dict
    degrees_of_freedom s = (Ok out, s') ->
  dict_keys (parsed_formula_contents out) = dict_keys (meta_datadict out) /\
  dict_keys (meta_datadict out) = dict_keys (dm_info_dict out) /\
  NoDup (dict_keys (parsed_formula_contents out)) /\
  forall p, In p (dict_keys (parsed_formula_contents out)) <-> In p params.
Proof.
  intro Hrun. unfold parse_formulas in Hrun.
  destruct (checkups_keys_nodup params formulas) as [Hnd Hkeys].
  destruct (@parse_loop np h _ data deep_models_dict degrees_of_freedom s
              _ _ _ _ Hnd Hrun) as (_ & _ & _ & K1 & K2 & K3).
  cbn [parsed_formula_contents meta_datadict dm_info_dict dict_keys map]
    in K1, K2, K3.
  rewrite (fold_keys_fresh _ [] Hnd) in K1, K2, K3. simpl app in K1, K2, K3.
  rewrite K1, K2, K3. auto.
Qed.

Lemma outputs_keyed_by_parameters_witness :
  exists out,
    parse_formulas Worked.numpy Worked.host ["loc"; "scale"; "loc"]
      [("loc", "~1+d1(x2,x1,x3)")] Worked.data [("d1", Worked.d1)]
      [("loc", DfScalar (Z2Qc 4)); ("scale", DfScalar (Z2Qc 4))] Worked.s0
    = (Ok out, Worked.s0) /\
    dict_keys (parsed_formula_contents out) = dict_keys (meta_datadict out) /\
    NoDup (dict_keys (parsed_formula_contents out)).
Proof.
  eexists.
  match goal with
  | |- ?R = (Ok ?O, _) /\ _ =>
      assert (Hrun : R = (Ok O, Worked.s0)) by (vm_compute; reflexivity)
  end.
  destruct (@outputs_keyed_by_parameters _ _ _ _ _ _ _ _ _ _ Hrun)
    as (H1 & _ & H3 & _).
  split; [exact Hrun|]. split; [exact H1 | exact H3].
Defined.

(** X24.  [parse_formulas] reads the degrees of freedom of every
    parameter of the family at the start of the parameter's pass, also
    for a parameter without formula or without smooth term: it returns
    only when each parameter has an entry; when the first parameter has
    none, a key error naming it is raised. *)
Theorem degrees_of_freedom_required (np : Numpy) (h : Host)
  (params : list string) (formulas : dict string) (data : DataFrame)
  (deep_models_dict : dict deep_model) (degrees_of_freedom : dict dfs_arg)
  (s : wstate) :
  (forall s' out p,
      parse_formulas np h params formulas data deep_models_dict
        degrees_of_freedom s = (Ok out, s') ->
      In p params ->
      exists dfs, dict_get degrees_of_freedom p = Some dfs) /\
  (forall p rest,
      params = p :: rest -> dict_get degrees_of_freedom p = None ->
      parse_formulas np h params formulas data deep_models_dict
        degrees_of_freedom s = (Raise (KeyError p), s)).
Proof.
  split.
  - intros s' out p Hrun Hp. unfold parse_formulas in Hrun.
    destruct (checkups_keys_nodup params formulas) as [Hnd Hkeys].
    destruct (@parse_loop np h _ data deep_models_dict degrees_of_freedom s
                _ _ _ _ Hnd Hrun) as (_ & Hin & _).
    destruct (Hin p (proj2 (Hkeys p) Hp)) as (dfs & _ & _ & _ & _ & Hdf & _).
    eauto.
  - intros p rest -> Hnone. unfold parse_formulas.
    assert (Hk : exists ks, dict_keys (_checkups (p :: rest) formulas)
                            = p :: ks).
    { assert (G : forall l (acc : dict string) ks,
                 dict_keys acc = p :: ks ->
                 exists ks',
                   dict_keys
                     (fold_left
                        (fun new_formulas q =>
                           match dict_get formulas q with
                           | Some f => dict_set new_formulas q f
                           | None => dict_set new_formulas q "~0"
                           end) l acc) = p :: ks').
      { induction l as [|q l IHl]; intros acc ks Hacc; simpl; [eauto|].
        destruct (dict_get formulas q);
          (destruct (mem q (p :: ks)) eqn:Em;
           [apply (IHl _ ks) | apply (IHl _ (ks ++ [q]))];
           rewrite dict_keys_set, Hacc, Em; reflexivity). }
      unfold _checkups. simpl fold_left.
      destruct (dict_get formulas p) as [f|]; simpl dict_set;
        apply (G rest _ []); reflexivity. }
    destruct Hk as [ks ->]. simpl foldM. unfold bind, parse_param at 1.
    unfold bind, lift, dict_item. rewrite Hnone. reflexivity.
Qed.

Lemma degrees_of_freedom_required_witness :
  parse_formulas Worked.numpy Worked.host ["loc"; "scale"]
    [("loc", "~1")] Worked.data [] [("scale", DfScalar (Z2Qc 4))] Worked.s0
  = (Raise (KeyError "loc"), Worked.s0).
Proof.
  apply (proj2 (@degrees_of_freedom_required Worked.numpy Worked.host
                  ["loc"; "scale"] [("loc", "~1")] Worked.data []
                  [("scale", DfScalar (Z2Qc 4))] Worked.s0)
           "loc" ["scale"]); reflexivity.
Defined.

(** X25.  Whenever the assembler returns, the penalty matrix is square
    with one row and one column per column of the design matrix,
    whatever the slices and roughness matrices of the terms are. *)
Theorem penalty_matrix_is_square (np : Numpy) (dm : DesignMatrix)
  (dfs : dfs_arg) (s s' : wstate) (bigP : matrix) :
  _get_P_from_design_matrix np dm dfs s = (Ok bigP, s') ->
  is_shape bigP (shape1 dm) (shape1 dm).
Proof.
  intro Hrun. destruct (get_P_unfold _ _ _ _ Hrun) as (st' & Hfold & <-).
  assert (H : forall terms st st1 s1,
             foldM (assemble_term np dm dfs) terms st s = (Ok st1, s1) ->
             is_shape (big_P st) (shape1 dm) (shape1 dm) ->
             is_shape (big_P st1) (shape1 dm) (shape1 dm)).
  { induction terms as [|t terms IH]; intros st st1 s1 Hf Hshape.
    - simpl in Hf. unfold ret in Hf. now injection Hf as <- <-.
    - simpl foldM in Hf. unfold bind in Hf.
      destruct (assemble_term np dm dfs st t s) as [[st2|e] s2] eqn:Hstep;
        [|discriminate].
      destruct (assemble_term_spec _ _ _ _ _ _ Hstep) as [-> Hspec].
      apply (IH _ _ _ Hf).
      destruct (roughness_of_term t) as [P0|].
      + destruct Hspec as (df & df' & lam & _ & _ & Hset & _).
        unfold set_block in Hset.
        destruct (_ && _) in Hset; [|discriminate].
        injection Hset as <-.
        rewrite (is_shape_nrows Hshape), (is_shape_ncols Hshape).
        apply is_shape_tabulate.
      + destruct Hspec as [-> _]. exact Hshape. }
  apply (H _ _ _ _ Hfold). apply is_shape_tabulate.
Qed.

Lemma penalty_matrix_is_square_witness :
  exists bigP,
    _get_P_from_design_matrix Worked.numpy Worked.full_design
      (DfScalar (qc 5 2)) Worked.s0 = (Ok bigP, Worked.s0) /\
    is_shape bigP 7 7.
Proof.
  eexists. split; [vm_compute; reflexivity|].
  apply (@penalty_matrix_is_square Worked.numpy Worked.full_design
           (DfScalar (qc 5 2)) Worked.s0 Worked.s0).
  vm_compute. reflexivity.
Defined.

(* ================================================================== *)
(** ** The unstructured terms                                          *)
(* ================================================================== *)

Lemma positions_notin (name : string) (cols : list string) :
  forall k, ~ In name cols -> positions name cols k = [].
Proof.
  induction cols as [|c cols IH]; intros k Hn; simpl; [reflexivity|].
  destruct (String.eqb name c) eqn:E.
  - apply String.eqb_eq in E. subst c. exfalso. apply Hn. now left.
  - apply IH. intro H. apply Hn. now right.
Qed.

Lemma positions_nodup (name : string) (cols : list string) :
  forall k, NoDup cols -> In name cols ->
    exists i, positions name cols k = [k + i] /\
              nth_error cols i = Some name.
Proof.
  induction cols as [|c cols IH]; intros k Hnd Hin; [destruct Hin|].
  inversion Hnd as [|? ? Hc Hnd']; subst. simpl.
  destruct (String.eqb name c) eqn:E.
  - apply String.eqb_eq in E. subst c. exists 0.
    rewrite (@positions_notin name cols (S k) Hc), Nat.add_0_r. auto.
  - apply String.eqb_neq in E. destruct Hin as [Hin|Hin]; [congruence|].
    destruct (IH (S k) Hnd' Hin) as (i & Hp & Hi). exists (S i).
    rewrite Hp. split; [f_equal; lia | exact Hi].
Qed.

Lemma lookup_columns_spec (cols : list string) :
  NoDup cols ->
  forall names idx,
    lookup_columns cols names = Ok idx ->
    Forall2 (fun f i => nth_error cols i = Some f) names idx.
Proof.
  intro Hnd. induction names as [|n names IH]; intros idx Hrun.
  - simpl in Hrun. injection Hrun as <-. constructor.
  - simpl in Hrun. destruct (in_dec string_dec n cols) as [Hin|Hout].
    + destruct (@positions_nodup n cols 0 Hnd Hin) as (i & Hp & Hi).
      rewrite Hp in Hrun.
      destruct (lookup_columns cols names) as [rest|e]; [|discriminate].
      injection Hrun as <-. simpl. constructor; [exact Hi | now apply IH].
    + rewrite (@positions_notin n cols 0 Hout) in Hrun. discriminate.
Qed.

(** X26.  Over a data frame whose column labels are distinct, every
    unstructured term "net(f1,...,fk)" that is processed stores under
    the network name the columns f1, ..., fk of the data, in the order
    of the term and with all rows: each listed feature is a column of
    the data (otherwise nothing is returned). *)
Theorem unstructured_data_are_named_columns
  (py_eval : string -> result nat) (data : DataFrame)
  (deep_models_dict : dict deep_model) (acc acc' : unstructured_state)
  (term : string) :
  NoDup (df_columns data) ->
  unstructured_step py_eval data deep_models_dict acc term = Ok acc' ->
  exists net_name args feature_names idx,
    nth_error (split_char "(" term) 0 = Some net_name /\
    nth_error (split_char "(" term) 1 = Some args /\
    nth_error (split_char ")" args) 0 = Some feature_names /\
    Forall2 (fun f i => nth_error (df_columns data) i = Some f)
            (split_char "," feature_names) idx /\
    dict_get (u_meta acc') net_name
    = Some (map (fun row => map (fun i => nth i row 0%Qc) idx)
                (df_values data)).
Proof.
  intros Hnd Hrun. unfold unstructured_step, py_index in Hrun.
  destruct (nth_error (split_char "(" term) 0) as [net_name|] eqn:E0;
    [|discriminate].
  destruct (nth_error (split_char "(" term) 1) as [args|] eqn:E1;
    [|discriminate].
  destruct (nth_error (split_char ")" args) 0) as [feature_names|] eqn:E2;
    [|discriminate].
  unfold df_getitem in Hrun.
  destruct (lookup_columns (df_columns data) (split_char "," feature_names))
    as [idx|e] eqn:El; [|discriminate].
  destruct (dict_item deep_models_dict net_name) as [dmodel|e];
    [|discriminate].
  destruct (match model dmodel with
            | ModelString code => py_eval code
            | ModelObject m => Ok m
            end) as [m|e]; [|discriminate].
  injection Hrun as <-.
  exists net_name, args, feature_names, idx.
  split; [first [reflexivity | exact E0]|].
  split; [first [reflexivity | exact E1]|].
  split; [first [reflexivity | exact E2]|].
  split; [exact (@lookup_columns_spec _ Hnd _ _ El)|].
  cbn [u_meta to_numpy df_values]. apply dict_get_set_same.
Qed.

Lemma unstructured_data_are_named_columns_witness :
  exists acc' idx,
    unstructured_step (py_eval Worked.host) Worked.data
      [("d1", Worked.d1)] (mk_unstructured [] [] []) "d1(x3,x1)" = Ok acc' /\
    Forall2 (fun f i => nth_error (df_columns Worked.data) i = Some f)
            ["x3"; "x1"] idx /\
    dict_get (u_meta acc') "d1"
    = Some (map (fun row => map (fun i => nth i row 0%Qc) idx)
                (df_values Worked.data)).
Proof.
  eexists.
  match goal with
  | |- exists idx, ?R = Ok ?A /\ _ =>
      assert (Hrun : R = Ok A) by (vm_compute; reflexivity)
  end.
  assert (Hnd : NoDup (df_columns Worked.data)).
  { repeat constructor; simpl; intuition discriminate. }
  destruct (@unstructured_data_are_named_columns _ _ _ _ _ _ Hnd Hrun)
    as (net & args & feats & idx & H0 & H1 & H2 & H3 & H4).
  injection H0 as <-. injection H1 as <-. injection H2 as <-.
  exists idx. split; [exact Hrun|]. split; [exact H3 | exact H4].
Defined.

Lemma split_char_absent (sep : ascii) (s : string) :
  has_char sep s = false -> split_char sep s = [s].
Proof.
  induction s as [|a rest IH]; simpl; [reflexivity|].
  intro H. apply orb_false_iff in H. destruct H as [Ha Hr].
  rewrite Ha, (IH Hr). reflexivity.
Qed.

(** X27.  A term without an opening parenthesis, such as the bare name
    of a network, cannot be processed as an unstructured term: the step
    raises an index error, whatever the data and the networks. *)
Theorem bare_network_name_raises (py_eval : string -> result nat)
  (data : DataFrame) (deep_models_dict : dict deep_model)
  (acc : unstructured_state) (term : string) :
  has_char "(" term = false ->
  unstructured_step py_eval data deep_models_dict acc term
  = Raise IndexError.
Proof.
  intro H. unfold unstructured_step.
  rewrite (@split_char_absent _ _ H). reflexivity.
Qed.

Lemma bare_network_name_raises_witness :
  unstructured_step (py_eval Worked.host) Worked.data [("d1", Worked.d1)]
    (mk_unstructured [] [] []) "d1"
  = Raise IndexError.
Proof.
  apply (@bare_network_name_raises (py_eval Worked.host) Worked.data
           [("d1", Worked.d1)] (mk_unstructured [] [] []) "d1").
  reflexivity.
Defined.

Lemma dict_keys_set_In {V} (d : dict V) (k x : string) (v : V) :
  In x (dict_keys (dict_set d k v)) <-> In x (dict_keys d) \/ x = k.
Proof.
  rewrite dict_keys_set. destruct (mem k (dict_keys d)) eqn:E.
  - split; [auto|]. intros [H| ->]; [exact H | now apply mem_In].
  - rewrite in_app_iff. simpl. intuition.
Qed.

Lemma unstructured_step_inv (py_eval : string -> result nat)
  (data : DataFrame) (deep_models_dict : dict deep_model)
  (acc acc' : unstructured_state) (term : string) :
  unstructured_step py_eval data deep_models_dict acc term = Ok acc' ->
  exists net_name values dmodel m,
    dict_get deep_models_dict net_name = Some dmodel /\
    acc' = mk_unstructured
             (dict_set (u_meta acc) net_name values)
             (dict_set (u_models acc) net_name m)
             (dict_set (u_shapes acc) net_name (output_shape dmodel)).
Proof.
  intro Hrun. unfold unstructured_step in Hrun.
  destruct (py_index (split_char "(" term) 0) as [net_name|e];
    [|destruct (py_index (split_char "(" term) 1); discriminate].
  destruct (py_index (split_char "(" term) 1) as [args|e]; [|discriminate].
  destruct (py_index (split_char ")" args) 0) as [fn|e]; [|discriminate].
  destruct (df_getitem data (split_char "," fn)) as [ud|e]; [|discriminate].
  unfold dict_item in Hrun.
  destruct (dict_get deep_models_dict net_name) as [dmodel|] eqn:Ed;
    [|discriminate].
  destruct (match model dmodel with
            | ModelString code => py_eval code
            | ModelObject m => Ok m
            end) as [m|e]; [|discriminate].
  injection Hrun as <-. exists net_name, (to_numpy ud), dmodel, m. auto.
Qed.

Lemma unstructured_loop (py_eval : string -> result nat)
  (data : DataFrame) (deep_models_dict : dict deep_model) :
  forall (terms : list string) (acc u : unstructured_state),
    fold_result (unstructured_step py_eval data deep_models_dict) terms acc
    = Ok u ->
    dict_keys (u_models acc) = dict_keys (u_shapes acc) ->
    In "structured" (dict_keys (u_meta acc)) ->
    (forall k, In k (dict_keys (u_models acc)) ->
       In k (dict_keys (u_meta acc)) /\
       exists dmodel, dict_get deep_models_dict k = Some dmodel /\
                      dict_get (u_shapes acc) k = Some (output_shape dmodel)) ->
    dict_keys (u_models u) = dict_keys (u_shapes u) /\
    In "structured" (dict_keys (u_meta u)) /\
    (forall k, In k (dict_keys (u_models u)) ->
       In k (dict_keys (u_meta u)) /\
       exists dmodel, dict_get deep_models_dict k = Some dmodel /\
                      dict_get (u_shapes u) k = Some (output_shape dmodel)).
Proof.
  induction terms as [|t terms IH]; intros acc u Hrun Hk Hs Hall.
  - simpl in Hrun. injection Hrun as <-. auto.
  - cbn [fold_result] in Hrun.
    destruct (unstructured_step py_eval data deep_models_dict acc t)
      as [acc1|e] eqn:Estep; [|discriminate].
    destruct (@unstructured_step_inv _ _ _ _ _ _ Estep)
      as (net & values & dmodel & m & Hd & ->).
    apply (IH _ _ Hrun); cbn [u_meta u_models u_shapes].
    + rewrite !dict_keys_set, Hk. reflexivity.
    + apply dict_keys_set_In. now left.
    + intros k Hin. apply dict_keys_set_In in Hin.
      destruct (string_dec k net) as [->|Hne].
      * split; [apply dict_keys_set_In; now right|].
        exists dmodel. split; [exact Hd | apply dict_get_set_same].
      * destruct Hin as [Hin|Hin]; [|contradiction].
        destruct (Hall k Hin) as (H1 & dm' & H2 & H3).
        split; [apply dict_keys_set_In; now left|].
        exists dm'. split; [exact H2|].
        rewrite dict_get_set_other by exact Hne. exact H3.
Qed.

(** X28.  What [parse_formulas] records for a parameter is consistent:
    the data of the parameter always has the entry "structured"; the
    networks and the output shapes of the parameter have the same keys
    in the same order; each of these keys is a registered network,
    recorded with the output shape of its registration, and has its
    data stored under the parameter. *)
Theorem recorded_networks_consistent (np : Numpy) (h : Host)
  (params : list string) (formulas : dict string) (data : DataFrame)
  (deep_models_dict : dict deep_model) (degrees_of_freedom : dict dfs_arg)
  (s s' : wstate) (out : outputs) (p : string) (c : parsed_content)
  (md : dict matrix) :
  parse_formulas np h params formulas data deep_models_dict
    degrees_of_freedom s = (Ok out, s') ->
  dict_get (parsed_formula_contents out) p = Some c ->
  dict_get (meta_datadict out) p = Some md ->
  In "structured" (dict_keys md) /\
  dict_keys (deep_models_dict_of c) = dict_keys (deep_shapes c) /\
  forall k, In k (dict_keys (deep_models_dict_of c)) ->
    In k (dict_keys md) /\
    exists dmodel, dict_get deep_models_dict k = Some dmodel /\
                   dict_get (deep_shapes c) k = Some (output_shape dmodel).
Proof.
  intros Hrun Hc Hmd. unfold parse_formulas in Hrun.
  destruct (checkups_keys_nodup params formulas) as [Hnd _].
  destruct (@parse_loop np h _ data deep_models_dict degrees_of_freedom s
              _ _ _ _ Hnd Hrun) as (_ & Hin & Hout & _).
  destruct (in_dec string_dec p (dict_keys (_checkups params formulas)))
    as [Hp|Hp].
  - destruct (Hin p Hp)
      as (dfs & formula & c' & md' & info & _ & _ & He & E1 & E2 & _).
    rewrite Hc in E1. rewrite Hmd in E2.
    injection E1 as <-. injection E2 as <-.
    destruct He as (sm & infos & values & u & _ & _ & _ & _ & Eu & Ec & -> & _).
    rewrite Ec. cbn [deep_models_dict_of deep_shapes].
    destruct (@unstructured_loop _ _ _ _ _ _ Eu) as (K1 & K2 & K3);
      cbn [u_meta u_models u_shapes]; auto.
    + now left.
    + intros k [].
  - destruct (Hout p Hp) as (E1 & _). rewrite Hc in E1. discriminate.
Qed.

Lemma recorded_networks_consistent_witness :
  exists out c md,
    parse_formulas Worked.numpy Worked.host ["loc"; "scale"]
      [("loc", "~1+d1(x2,x1,x3)")] Worked.data [("d1", Worked.d1)]
      [("loc", DfScalar (Z2Qc 4)); ("scale", DfScalar (Z2Qc 4))] Worked.s0
    = (Ok out, Worked.s0) /\
    dict_get (parsed_formula_contents out) "loc" = Some c /\
    dict_get (meta_datadict out) "loc" = Some md /\
    In "structured" (dict_keys md) /\
    dict_keys (deep_models_dict_of c) = dict_keys (deep_shapes c).
Proof.
  eexists. eexists. eexists.
  match goal with
  | |- ?R = (Ok ?O, _) /\ ?G1 = Some ?C /\ ?G2 = Some ?M /\ _ =>
      assert (Hrun : R = (Ok O, Worked.s0)) by (vm_compute; reflexivity);
      assert (H1 : G1 = Some C) by (vm_compute; reflexivity);
      assert (H2 : G2 = Some M) by (vm_compute; reflexivity)
  end.
  destruct (@recorded_networks_consistent _ _ _ _ _ _ _ _ _ _ _ _ _
              Hrun H1 H2) as (H3 & H4 & _).
  split; [exact Hrun|]. split; [exact H1|]. split; [exact H2|].
  split; [exact H3 | exact H4].
Defined.
